(** * file-distributor: the chunk distribution and reassembly core

    A shallow embedding of [cmd/distributor/main.go] (the storage clients,
    [splitFile], [uploadHandler] and [downloadHandler]) and the properties
    of the upload / download protocol proved about it.

    Conventions of the embedding.
    - Go's [int] and [uint] values that occur here are lengths and indexes
      bounded by the length of the uploaded file, so they are [nat]; no
      product computed by [splitFile] exceeds [len(file)].
    - A Go slice is its visible elements together with the rest of its
      backing array up to the capacity, because a slice expression on a
      slice is checked against the capacity and not against the length.
    - A run-time panic is a result of its own, distinct from an HTTP
      reply and from a Go [error] value.
    - The goroutines of one upload are interleaved by an explicit schedule. *)

From Stdlib.Strings Require Import Byte Ascii String.
From stdpp Require Import gmap strings list fin_maps.

Local Open Scope string_scope.
Local Open Scope nat_scope.
Local Open Scope list_scope.

(** ** Run-time panics *)

Inductive panic :=
| SliceBoundsOutOfRange
| IndexOutOfRange
| IntegerDivideByZero.

Inductive res (A : Type) :=
| Val (a : A)
| Panic (p : panic).
Arguments Val {A} a.
Arguments Panic {A} p.

Global Instance res_ret : MRet res := fun A a => Val a.
Global Instance res_bind : MBind res := fun A B f m =>
  match m with
  | Val a => f a
  | Panic p => Panic p
  end.

(** ** Byte slices *)

Record slice := mkSlice {
  elems : list byte;   (* the len(s) visible bytes *)
  spare : list byte    (* the backing array between len(s) and cap(s) *)
}.

Definition len (s : slice) : nat := length (elems s).
Definition cap (s : slice) : nat := length (elems s) + length (spare s).
Definition backing (s : slice) : list byte := elems s ++ spare s.

(* the zero value of []byte *)
Definition nil_slice : slice := mkSlice [] [].

(* s[lo:hi], in range when 0 <= lo <= hi <= cap(s) *)
Definition reslice (s : slice) (lo hi : nat) : res slice :=
  if (lo <=? hi) && (hi <=? cap s)
  then Val (mkSlice (take (hi - lo) (drop lo (backing s))) (drop hi (backing s)))
  else Panic SliceBoundsOutOfRange.

(* s[lo:], the high bound defaults to len(s) *)
Definition reslice_from (s : slice) (lo : nat) : res slice :=
  reslice s lo (len s).

(* s[:hi] *)
Definition reslice_to (s : slice) (hi : nat) : res slice :=
  reslice s 0 hi.

(* str[:hi] on a string, in range when hi <= len(str) *)
Definition string_prefix (str : list byte) (hi : nat) : res (list byte) :=
  if hi <=? length str then Val (take hi str) else Panic SliceBoundsOutOfRange.

(** ** Errors and chunks *)

Inductive error :=
| ErrResourceNotFound (name : string)      (* "resource %q not found" *)
| ErrUploadPart (i : nat) (cause : error)  (* "failed to upload part %d to server: %w" *)
| ErrBackend (msg : string).               (* an error of another backend *)

Record chunk := mkChunk {
  order : nat;
  data : slice
}.

Record fileChunkInfo := mkInfo {
  ResourceID : string;
  FileName : string;
  Order : nat;
  URL : string
}.

(** ** Storage clients *)

Class StorageClient (S : Type) := {
  SaveChunk : S → string → nat → slice → S * option error;
  GetChunk : S → string → chunk + error
}.

Record mockStorageServer := mkMock {
  addr : string;
  storage : gmap string chunk
}.

Definition newStorageClient (a : string) : mockStorageServer :=
  mkMock a ∅.

Definition mock_GetChunk (s : mockStorageServer) (name : string) : chunk + error :=
  match storage s !! name with
  | Some ch => inl ch
  | None => inr (ErrResourceNotFound name)
  end.

Definition mock_SaveChunk (s : mockStorageServer) (name : string) (o : nat)
    (d : slice) : mockStorageServer * option error :=
  (mkMock (addr s) (<[name := mkChunk o d]> (storage s)), None).

Global Instance mock_client : StorageClient mockStorageServer := {
  SaveChunk := mock_SaveChunk;
  GetChunk := mock_GetChunk
}.

Definition addresses : list string :=
  [ "http://localhost:8081"; "http://localhost:8082"; "http://localhost:8083";
    "http://localhost:8084"; "http://localhost:8085"; "http://localhost:8086" ].

(* the [servers] global as [main] fills it *)
Definition main_servers : list mockStorageServer :=
  map newStorageClient addresses.

(** ** splitFile *)

(* one iteration of the loop: splitted[i] = file[...] *)
Definition splitFile_iter (file : slice) (parts partSize : nat)
    (splitted : list slice) (i : nat) : res (list slice) :=
  part ← (if i =? parts - 1
          then reslice_from file (i * partSize)
          else reslice file (i * partSize) ((i + 1) * partSize));
  mret (<[i := part]> splitted).

Definition splitFile {S : Type} (servers : list S) (file : slice) : res (list slice) :=
  let parts := length servers in
  if parts =? 0 then Panic IntegerDivideByZero else
  let partSize := len file / parts in
  foldl (fun acc i => acc ≫= fun splitted => splitFile_iter file parts partSize splitted i)
        (Val (replicate parts nil_slice)) (seq 0 parts).

(** ** The uploaded file as a reader

    [r.FormFile] hands out a [multipart.File]: the part's bytes behind a
    read offset that starts at 0 and that every read advances. Reads of it
    are taken not to fail; the two replies to a read that fails are those of
    [uploadHandlerIO] below. *)

Record multipartFile := mkFile {
  content : list byte;
  offset : nat
}.

Definition openFile (bytes : list byte) : multipartFile := mkFile bytes 0.

Definition unread (f : multipartFile) : list byte := drop (offset f) (content f).

Definition drained (f : multipartFile) : multipartFile :=
  mkFile (content f) (Nat.max (offset f) (length (content f))).

(* io.Copy(h, file): every unread byte is written to [h], the reader is
   left at its end *)
Definition ioCopy (f : multipartFile) : list byte * multipartFile :=
  (unread f, drained f).

(* %x of a byte slice: two lower-case hexadecimal digits per byte *)
Definition hexDigit (n : nat) : ascii :=
  match n with
  | 0 => "0" | 1 => "1" | 2 => "2" | 3 => "3" | 4 => "4" | 5 => "5"
  | 6 => "6" | 7 => "7" | 8 => "8" | 9 => "9" | 10 => "a" | 11 => "b"
  | 12 => "c" | 13 => "d" | 14 => "e" | _ => "f"
  end%char.

Fixpoint hexEncode (bs : list byte) : string :=
  match bs with
  | [] => ""
  | b :: rest =>
      let n := Byte.to_nat b in
      String (hexDigit (n / 16)) (String (hexDigit (n mod 16)) (hexEncode rest))
  end.

(** ** HTTP requests and responses *)

Record fileHeader := mkFileHeader {
  Filename : string;
  Body : list byte
}.

Record request := mkRequest {
  Method : string;
  FormFile : option fileHeader;   (* the "file" field of the multipart form *)
  resource_id : string            (* r.URL.Query().Get("resource_id") *)
}.

Record uploadResponse := mkUploadResponse {
  Resource : string;
  Checksum : string
}.

Inductive reply :=
| HttpError (msg : string) (status : nat)
| Created (payload : uploadResponse)
| Attachment (fileName : string) (body : list byte).

Definition StatusBadRequest := 400.
Definition StatusNotFound := 404.
Definition StatusMethodNotAllowed := 405.
Definition StatusInternalServerError := 500.

(** ** The registry, the upload and the download *)

Section Distributor.

Context {S : Type} `{!StorageClient S}.

(* crypto/sha256: the digest of everything written to the hash *)
Variable sha256_Sum : list byte → list byte.

(* the capacity that append's growth leaves beyond the length, which the
   language does not fix *)
Variable growth : nat → nat.

(* io.ReadAll(file): the unread bytes in a buffer that starts with
   capacity 512 and grows by append once it is full *)
Definition ioReadAll (f : multipartFile) : slice * multipartFile :=
  let bytes := unread f in
  let n := length bytes in
  let room := if n <? 512 then 512 - n else growth n in
  (mkSlice bytes (replicate room x00), drained f).

(* the package-level variables [fileChunksDB] and [servers] *)
Record world := mkWorld {
  fileChunksDB : gmap string (list fileChunkInfo);
  servers : list S
}.

(* a Go map read of a missing key gives the nil slice *)
Definition dbGet (db : gmap string (list fileChunkInfo)) (id : string)
    : list fileChunkInfo :=
  default [] (db !! id).

(** *** The goroutines of one upload

    Each goroutine runs [uploadFn]: under the lock it appends its record,
    and after the unlock it calls [SaveChunk] and returns. These are its
    two steps; a schedule names the goroutine that moves next. The loop
    variable [i] is the closure's own (Go 1.22), and each goroutine is taken
    to test the value that it has just assigned to the shared [err]. Other
    requests are not interleaved with the goroutines of an upload. *)

Inductive phase :=
| Spawned
| Recorded
| Returned (err : option error).

Record job := mkJob {
  job_resourceID : string;
  job_filename : string;
  job_parts : list slice
}.

Record upload := mkUpload {
  up_db : gmap string (list fileChunkInfo);
  up_servers : list S;
  up_tasks : list phase
}.

Definition uploadFn_step (j : job) (u : upload) (id : nat) : upload :=
  match up_tasks u !! id with
  | Some Spawned =>
      let chunks := dbGet (up_db u) (job_resourceID j) in
      let chunks := chunks ++ [mkInfo (job_resourceID j) (job_filename j) id "TBD"] in
      mkUpload (<[job_resourceID j := chunks]> (up_db u))
               (up_servers u)
               (<[id := Recorded]> (up_tasks u))
  | Some Recorded =>
      match up_servers u !! id, job_parts j !! id with
      | Some srv, Some part =>
          let '(srv', err) := SaveChunk srv (job_resourceID j) id part in
          mkUpload (up_db u)
                   (<[id := srv']> (up_servers u))
                   (<[id := Returned (ErrUploadPart id <$> err)]> (up_tasks u))
      | _, _ => u
      end
  | _ => u
  end.

Definition run (j : job) (u : upload) (sched : list nat) : upload :=
  foldl (uploadFn_step j) u sched.

Definition task_failed (p : phase) : bool :=
  match p with
  | Returned (Some _) => true
  | _ => false
  end.

(* the state in which the first goroutine is started *)
Definition upload_start (w : world) (j : job) : upload :=
  mkUpload (<[job_resourceID j := []]> (fileChunksDB w))
           (servers w)
           (replicate (length (job_parts j)) Spawned).

(* g.Wait() returns once every goroutine has returned: whatever the
   schedule left undone is run to its end *)
Definition upload_wait (j : job) (u : upload) : upload :=
  let ids := seq 0 (length (job_parts j)) in
  run j u (ids ++ ids).

Definition uploadHandler (w : world) (r : request) (uuid : string)
    (sched : list nat) : res reply * world :=
  if negb (String.eqb (Method r) "POST")
  then (Val (HttpError "Only POST is supported" StatusMethodNotAllowed), w)
  else
  match FormFile r with
  | None => (Val (HttpError "Failed to get the uploaded file" StatusBadRequest), w)
  | Some fh =>
      let file := openFile (Body fh) in
      let '(hashed, file) := ioCopy file in
      let checksum := hexEncode (sha256_Sum hashed) in
      let '(fileBytes, file) := ioReadAll file in
      match splitFile (servers w) fileBytes with
      | Panic p => (Panic p, w)
      | Val parts =>
          let j := mkJob uuid (Filename fh) parts in
          let u := upload_wait j (run j (upload_start w j) sched) in
          let w' := mkWorld (up_db u) (up_servers u) in
          if existsb task_failed (up_tasks u)
          then (Val (HttpError "Failed to upload file to storage"
                               StatusInternalServerError), w')
          else (Val (Created (mkUploadResponse uuid checksum)), w')
      end
  end.

(** *** The download *)

Record fetch := mkFetch {
  buf : list byte;        (* the strings.Builder *)
  fileName : string;
  fetched : list nat      (* the order logged before each GetChunk *)
}.

(* one iteration of the loop over the records; [inr] is an early return *)
Definition download_iter (srvs : list S) (resourceID : string) (i : nat)
    (info : fileChunkInfo) (st : fetch) : res (fetch + reply) * list nat :=
  let name := if i =? 0 then FileName info else fileName st in
  match srvs !! Order info with
  | None => (Panic IndexOutOfRange, fetched st)
  | Some srv =>
      let log := fetched st ++ [Order info] in
      match GetChunk srv resourceID with
      | inr _ =>
          (Val (inr (HttpError "Failed to get file chunk" StatusInternalServerError)), log)
      | inl ch =>
          match reslice_to (data ch) 10 with
          | Panic p => (Panic p, log)
          | Val _ => (Val (inl (mkFetch (buf st ++ elems (data ch)) name log)), log)
          end
      end
  end.

Fixpoint download_loop (srvs : list S) (resourceID : string) (i : nat)
    (chunks : list fileChunkInfo) (st : fetch) : res (fetch + reply) * list nat :=
  match chunks with
  | [] => (Val (inl st), fetched st)
  | info :: rest =>
      match download_iter srvs resourceID i info st with
      | (Val (inl st'), _) => download_loop srvs resourceID (i + 1) rest st'
      | stop => stop
      end
  end.

(* the reply, or the panic, of the handler and the orders it logged
   as "Downloading file chunk" *)
Definition downloadHandler (w : world) (r : request) : res reply * list nat :=
  if negb (String.eqb (Method r) "GET")
  then (Val (HttpError "Only GET is supported" StatusMethodNotAllowed), [])
  else if String.eqb (resource_id r) ""
  then (Val (HttpError "Resource ID is required" StatusBadRequest), [])
  else
  match fileChunksDB w !! resource_id r with
  | None | Some [] => (Val (HttpError "File not found" StatusNotFound), [])
  | Some chunks =>
      match download_loop (servers w) (resource_id r) 0 chunks (mkFetch [] "" []) with
      | (Panic p, log) => (Panic p, log)
      | (Val (inr early), log) => (Val early, log)
      | (Val (inl st), log) =>
          match string_prefix (buf st) 10 with
          | Panic p => (Panic p, log)
          | Val _ => (Val (Attachment (fileName st) (buf st)), log)
          end
      end
  end.

End Distributor.

Arguments world S : clear implicits.
Arguments upload S : clear implicits.

(** * Vocabulary of the properties *)

(** ** The parts of a buffer *)

(* the part that the loop stores at index [i] *)
Definition part_at (file : slice) (parts i : nat) : slice :=
  let partSize := len file / parts in
  if i =? parts - 1
  then mkSlice (drop (i * partSize) (elems file)) (spare file)
  else mkSlice (take partSize (drop (i * partSize) (elems file)))
               (drop ((i + 1) * partSize) (backing file)).

(** ** Histories of the in-memory backend *)

Definition saveCall : Type := string * nat * slice.

Definition saved_under (name : string) (call : saveCall) : option chunk :=
  let '(n, o, d) := call in
  if decide (n = name) then Some (mkChunk o d) else None.

(* the chunk of the latest call that names [name] *)
Definition lastSaved (name : string) (calls : list saveCall) : option chunk :=
  last (omap (saved_under name) calls).

(* the server after a sequence of SaveChunk calls *)
Definition saveAll (s : mockStorageServer) (calls : list saveCall) : mockStorageServer :=
  foldl (fun s call => let '(n, o, d) := call in (SaveChunk s n o d).1) s calls.

(** ** States of an upload *)

Definition rank (p : phase) : nat :=
  match p with
  | Spawned => 0
  | Recorded => 1
  | Returned _ => 2
  end.

Section UploadStates.

Context {S : Type} `{!StorageClient S}.

Implicit Types (j : job) (u : upload S).

(* the orders recorded for the resource of the job *)
Definition orders j u : list nat :=
  Order <$> dbGet (up_db u) (job_resourceID j).

(* one goroutine and one backend per part *)
Definition sized j u : Prop :=
  length (up_tasks u) = length (job_parts j)
  ∧ length (up_servers u) = length (job_parts j).

(* the records of the resource are those of the goroutines that have
   left their locked section, each once *)
Definition recorded j u : Prop :=
  NoDup (orders j u)
  ∧ (∀ i, i ∈ orders j u ↔ ∃ p, up_tasks u !! i = Some p ∧ 1 ≤ rank p)
  ∧ (∀ info, info ∈ dbGet (up_db u) (job_resourceID j) →
       info = mkInfo (job_resourceID j) (job_filename j) (Order info) "TBD").

(* the state in which g.Wait() returns *)
Definition upload_end (w : world S) (j : job) (sched : list nat) : upload S :=
  upload_wait j (run j (upload_start w j) sched).

End UploadStates.

(* uploads handled one after the other: the request, the identifier that
   was generated for it and the schedule of its goroutines *)
Definition uploadCall : Type := request * string * list nat.

Definition serveUploads {S : Type} `{!StorageClient S}
    (sha256_Sum : list byte → list byte) (growth : nat → nat)
    (w : world S) (calls : list uploadCall) : world S :=
  foldl (fun w call =>
           let '(r, uuid, sched) := call in
           (uploadHandler sha256_Sum growth w r uuid sched).2)
        w calls.

(* a goroutine that has returned has left its part on its backend *)
Definition saved (j : job) (u : upload mockStorageServer) : Prop :=
  ∀ i e, up_tasks u !! i = Some (Returned e) →
    ∃ srv part, up_servers u !! i = Some srv
      ∧ job_parts j !! i = Some part
      ∧ storage srv !! job_resourceID j = Some (mkChunk i part).

(** ** What a download fetches *)

Section Fetches.

Context {S : Type} `{!StorageClient S}.

Implicit Types (srvs : list S) (rid : string) (info : fileChunkInfo)
  (chunks : list fileChunkInfo) (st : fetch) (i : nat).

(* the chunk that the backend named by a record returns *)
Definition chunkOf srvs rid info : option chunk :=
  srv ← srvs !! Order info;
  match GetChunk srv rid with
  | inl ch => Some ch
  | inr _ => None
  end.

Definition chunkBytes srvs rid info : list byte :=
  from_option (fun ch => elems (data ch)) [] (chunkOf srvs rid info).

(* the chunk of the record is fetched and ch.data[:10] is in range *)
Definition passes srvs rid info : Prop :=
  ∃ ch, chunkOf srvs rid info = Some ch ∧ 10 ≤ cap (data ch).

(* the file name after the loop has run over [chunks] from index [i] *)
Definition nameAfter i chunks st : string :=
  match chunks with
  | info :: _ => if i =? 0 then FileName info else fileName st
  | [] => fileName st
  end.

Definition fetchAll srvs rid i chunks st : fetch :=
  mkFetch (buf st ++ concat (chunkBytes srvs rid <$> chunks))
          (nameAfter i chunks st)
          (fetched st ++ (Order <$> chunks)).

End Fetches.

(** ** Statements that the code does not meet, as they are worded *)

(* C2 as the specification words it: a record is in the registry only once
   the SaveChunk of its part has succeeded *)
Definition record_only_after_save {S : Type} `{!StorageClient S}
    (j : job) (u : upload S) : Prop :=
  ∀ i, i ∈ orders j u → up_tasks u !! i = Some (Returned None).

(* C10 as the specification words it: the handler panics whenever a chunk
   that it has fetched is shorter than 10 bytes *)
Definition short_chunk_panics {S : Type} `{!StorageClient S}
    (w : world S) (r : request) : Prop :=
  ∀ info ch,
    info ∈ dbGet (fileChunksDB w) (resource_id r) →
    Order info ∈ (downloadHandler w r).2 →
    chunkOf (servers w) (resource_id r) info = Some ch →
    len (data ch) < 10 →
    (downloadHandler w r).1 = Panic SliceBoundsOutOfRange.


(* C5 as the specification words it: the orders are ascending *)
Definition ascending (l : list nat) : Prop :=
  ∀ i j a b, i < j → l !! i = Some a → l !! j = Some b → a < b.

(** ** Sample data *)

Definition sampleBytes (n : nat) : list byte :=
  (fun k => default x00 (Byte.of_nat (k `mod` 256))) <$> seq 0 n.

Definition sample601 : slice := mkSlice (sampleBytes 601) [].

Definition sampleCalls : list saveCall :=
  [ ("r1", 0, mkSlice (sampleBytes 3) []);
    ("r2", 1, mkSlice (sampleBytes 4) []);
    ("r1", 2, mkSlice (sampleBytes 5) []) ].

(* stands in for SHA-256 where a statement is evaluated; the theorems hold
   for every digest function *)
Definition sampleDigest (bs : list byte) : list byte := take 4 (rev bs).

Definition sampleGrowth (n : nat) : nat := n.

Definition sampleWorld : world mockStorageServer := mkWorld ∅ main_servers.

Definition sampleUpload : request :=
  mkRequest "POST" (Some (mkFileHeader "a.bin" (sampleBytes 601))) "".

Definition sampleDownload (id : string) : request := mkRequest "GET" None id.

(* the job that [uploadHandler] starts for [sampleUpload] *)
Definition sampleJob : job :=
  let fileBytes := (ioReadAll sampleGrowth (ioCopy (openFile (sampleBytes 601))).2).1 in
  match splitFile main_servers fileBytes with
  | Val parts => mkJob "id-1" "a.bin" parts
  | Panic _ => mkJob "id-1" "a.bin" []
  end.

(* the world between the two steps of goroutine 0 of the sample upload *)
Definition sampleMidWorld : world mockStorageServer :=
  let u := run sampleJob (upload_start sampleWorld sampleJob) [0] in
  mkWorld (up_db u) (up_servers u).

(* the world once goroutine 0 of the sample upload has returned and
   goroutine 1 has left its locked section *)
Definition sampleHalfWorld : world mockStorageServer :=
  let u := run sampleJob (upload_start sampleWorld sampleJob) [0; 0; 1] in
  mkWorld (up_db u) (up_servers u).

(* the world after the sample upload, goroutine 1 scheduled first *)
Definition sampleEndWorld : world mockStorageServer :=
  (uploadHandler sampleDigest sampleGrowth sampleWorld sampleUpload "id-1" [1; 0; 1]).2.

(* two backends holding the halves of a 12-byte buffer of capacity 512, put
   there by the goroutines of an upload under the schedule [sched]. No
   request leads here, [uploadHandler] reading a drained reader: the state
   stands for what SaveChunk accepts, in statements about every state *)
Definition shortServers : list mockStorageServer :=
  newStorageClient <$> take 2 addresses.

Definition shortJob : job :=
  match splitFile shortServers (ioReadAll sampleGrowth (openFile (sampleBytes 12))).1 with
  | Val parts => mkJob "id-2" "b.bin" parts
  | Panic _ => mkJob "id-2" "b.bin" []
  end.

Definition shortWorld (sched : list nat) : world mockStorageServer :=
  let u := upload_end (mkWorld ∅ shortServers) shortJob sched in
  mkWorld (up_db u) (up_servers u).

(** ** Further vocabulary: what an upload hands to the backends *)

(* what [io.ReadAll] returns in [uploadHandler], the reader being at its end *)
Definition drainedBuffer : slice := mkSlice [] (replicate 512 x00).

Section Delivery.

Context {S : Type} `{!StorageClient S}.

(* the backend at index [i] once its goroutine has called SaveChunk *)
Definition deliver (j : job) (i : nat) (srv : S) : S :=
  match job_parts j !! i with
  | Some part => (SaveChunk srv (job_resourceID j) i part).1
  | None => srv
  end.

(* the error, if any, of that call *)
Definition refusal (j : job) (i : nat) (srv : S) : option error :=
  match job_parts j !! i with
  | Some part => (SaveChunk srv (job_resourceID j) i part).2
  | None => None
  end.

(* a backend is as the upload found it until its goroutine has returned,
   and has then received the one call of that goroutine *)
Definition delivered (w : world S) (j : job) (u : upload S) : Prop :=
  ∀ i p, up_tasks u !! i = Some p →
    match p with
    | Returned e =>
        ∃ srv, servers w !! i = Some srv
          ∧ up_servers u !! i = Some (deliver j i srv)
          ∧ e = ErrUploadPart i <$> refusal j i srv
    | _ => up_servers u !! i = servers w !! i
    end.

(* every record names a backend that exists *)
Definition inRange (w : world S) : Prop :=
  ∀ id chunks info,
    fileChunksDB w !! id = Some chunks → info ∈ chunks →
    Order info < length (servers w).

(* no record leads to a byte of content *)
Definition hollow (w : world S) : Prop :=
  ∀ id chunks info,
    fileChunksDB w !! id = Some chunks → info ∈ chunks →
    chunkBytes (servers w) id info = [].

End Delivery.

(* the job that [uploadHandler] starts: one drained buffer per backend *)
Definition drainedJob (uuid filename : string) (n : nat) : job :=
  mkJob uuid filename (replicate n drainedBuffer).

(* what the environment decides about the two reads of the uploaded file *)
Record readFaults := mkReadFaults {
  copyFails : bool;      (* io.Copy(h, file) returns an error *)
  readAllFails : bool    (* io.ReadAll(file) returns an error *)
}.

Definition noFaults : readFaults := mkReadFaults false false.

(* [uploadHandler] with its two replies to a failed read; both come before
   an identifier is generated and before the registry is touched *)
Definition uploadHandlerIO {S : Type} `{!StorageClient S}
    (faults : readFaults)
    (sha256_Sum : list byte → list byte) (growth : nat → nat)
    (w : world S) (r : request) (uuid : string) (sched : list nat)
    : res reply * world S :=
  if negb (String.eqb (Method r) "POST")
  then (Val (HttpError "Only POST is supported" StatusMethodNotAllowed), w)
  else
  match FormFile r with
  | None => (Val (HttpError "Failed to get the uploaded file" StatusBadRequest), w)
  | Some fh =>
      if copyFails faults
      then (Val (HttpError "Failed to calculate checksum" StatusInternalServerError), w)
      else if readAllFails faults
      then (Val (HttpError "Failed to read the file" StatusInternalServerError), w)
      else uploadHandler sha256_Sum growth w r uuid sched
  end.

(* the value of a hexadecimal digit *)
Definition hexValue (c : ascii) : nat :=
  match c with
  | "0" => 0 | "1" => 1 | "2" => 2 | "3" => 3 | "4" => 4 | "5" => 5
  | "6" => 6 | "7" => 7 | "8" => 8 | "9" => 9 | "a" => 10 | "b" => 11
  | "c" => 12 | "d" => 13 | "e" => 14 | _ => 15
  end%char.

(** * Properties *)

(** ** The splitter *)

Section Splitter.

Implicit Types (file : slice) (parts i k : nat).

Lemma partSize_bound file parts i :
  i < parts → (i + 1) * (len file / parts) ≤ len file.
Proof.
  intros Hi.
  assert (parts * (len file / parts) ≤ len file) by (apply Nat.Div0.mul_div_le).
  nia.
Qed.

Lemma splitFile_iter_ok file parts splitted i :
  i < parts →
  splitFile_iter file parts (len file / parts) splitted i
  = Val (<[i := part_at file parts i]> splitted).
Proof.
  intros Hi. pose proof (partSize_bound file parts i Hi) as Hb.
  unfold splitFile_iter, part_at, reslice_from, reslice, backing, cap, len in *.
  set (ps := length (elems file) / parts) in *.
  destruct (i =? parts - 1) eqn:Hlast.
  - assert (i * ps ≤ length (elems file)) as Hlo by lia.
    replace ((i * ps <=? length (elems file))
             && (length (elems file) <=? length (elems file) + length (spare file)))
      with true
      by (symmetry; apply andb_true_intro; split; apply Nat.leb_le; lia).
    cbn. do 2 f_equal. f_equal.
    + rewrite drop_app_le by lia. rewrite take_app_ge by (rewrite length_drop; lia).
      rewrite length_drop.
      replace (length (elems file) - i * ps - (length (elems file) - i * ps)) with 0 by lia.
      rewrite take_0. by rewrite app_nil_r.
    + rewrite drop_app_length. done.
  - replace ((i * ps <=? (i + 1) * ps)
             && ((i + 1) * ps <=? length (elems file) + length (spare file)))
      with true
      by (symmetry; apply andb_true_intro; split; apply Nat.leb_le; lia).
    cbn. do 2 f_equal. f_equal.
    replace ((i + 1) * ps - i * ps) with ps by lia.
    rewrite drop_app_le by lia.
    rewrite take_app_le by (rewrite length_drop; lia). done.
Qed.

Lemma splitFile_loop file parts k :
  k ≤ parts →
  foldl (fun acc i => acc ≫= fun splitted =>
           splitFile_iter file parts (len file / parts) splitted i)
        (Val (replicate parts nil_slice)) (seq 0 k)
  = Val ((part_at file parts <$> seq 0 k) ++ replicate (parts - k) nil_slice).
Proof.
  induction k as [|k IH]; intros Hk.
  - cbn. by rewrite Nat.sub_0_r.
  - rewrite seq_S, foldl_app, IH by lia.
    cbn [foldl Nat.add]. unfold mbind at 1, res_bind at 1.
    rewrite splitFile_iter_ok by lia. f_equal.
    rewrite fmap_app. cbn.
    replace (parts - k) with (1 + (parts - (1 + k))) by lia.
    rewrite replicate_add. cbn.
    rewrite <- (Nat.add_0_r k) at 1.
    replace (k + 0) with (length (part_at file parts <$> seq 0 k) + 0)
      by (rewrite length_fmap, length_seq; lia).
    rewrite insert_app_r. cbn. by rewrite <- app_assoc.
Qed.

Lemma splitFile_spec {S : Type} (servers : list S) file :
  1 ≤ length servers →
  splitFile servers file = Val (part_at file (length servers) <$> seq 0 (length servers)).
Proof.
  intros HN. unfold splitFile.
  destruct (length servers =? 0) eqn:E; [apply Nat.eqb_eq in E; lia|].
  rewrite splitFile_loop by lia.
  by rewrite Nat.sub_diag, app_nil_r.
Qed.

Lemma len_part_at_inner file parts i :
  i < parts - 1 → len (part_at file parts i) = len file / parts.
Proof.
  intros Hi. pose proof (partSize_bound file parts i ltac:(lia)).
  unfold part_at. destruct (i =? parts - 1) eqn:E; [apply Nat.eqb_eq in E; lia|].
  unfold len in *. cbn. rewrite length_take, length_drop. lia.
Qed.

Lemma len_part_at_last file parts :
  1 ≤ parts →
  len (part_at file parts (parts - 1))
  = len file - (parts - 1) * (len file / parts).
Proof.
  intros Hp. unfold part_at. rewrite Nat.eqb_refl.
  unfold len. cbn. by rewrite length_drop.
Qed.

Lemma concat_inner_parts file parts k :
  k ≤ parts - 1 →
  concat (elems <$> (part_at file parts <$> seq 0 k))
  = take (k * (len file / parts)) (elems file).
Proof.
  induction k as [|k IH]; intros Hk; [done|].
  rewrite seq_S, !fmap_app, concat_app, IH by lia. cbn.
  rewrite app_nil_r. unfold part_at.
  destruct (k =? parts - 1) eqn:E; [apply Nat.eqb_eq in E; lia|]. cbn.
  rewrite take_take_drop. f_equal. lia.
Qed.

Lemma concat_parts file parts :
  1 ≤ parts →
  concat (elems <$> (part_at file parts <$> seq 0 parts)) = elems file.
Proof.
  intros Hp. replace parts with (parts - 1 + 1) at 2 by lia.
  rewrite seq_app, !fmap_app, concat_app, concat_inner_parts by lia. cbn.
  rewrite app_nil_r. unfold part_at at 1. rewrite Nat.eqb_refl. cbn.
  apply take_drop.
Qed.

Lemma sum_len_concat (l : list slice) :
  sum_list (len <$> l) = length (concat (elems <$> l)).
Proof.
  induction l as [|s l IH]; [done|].
  cbn. rewrite length_app, <- IH. done.
Qed.

End Splitter.

(** C3. With N >= 1 backends the splitter returns exactly N parts; their
    concatenation is the buffer (so their lengths add up to L); each of the
    first N-1 parts has floor(L/N) bytes and the last has
    L - (N-1)*floor(L/N); with 6 backends and 601 bytes the sizes are
    100,100,100,100,100,101. *)
Theorem C3_splitFile_parts {S : Type} (servers : list S) (file : slice) :
  1 ≤ length servers →
  ∃ parts : list slice,
    splitFile servers file = Val parts
    ∧ length parts = length servers
    ∧ concat (elems <$> parts) = elems file
    ∧ sum_list (len <$> parts) = len file
    ∧ (∀ i p, i < length servers - 1 → parts !! i = Some p →
         len p = len file / length servers)
    ∧ (∃ p, parts !! (length servers - 1) = Some p
         ∧ len p = len file - (length servers - 1) * (len file / length servers))
    ∧ (length servers = 6 → len file = 601 →
         len <$> parts = [100; 100; 100; 100; 100; 101]).
Proof.
  intros HN. set (N := length servers) in *.
  exists (part_at file N <$> seq 0 N).
  assert (Hcat : concat (elems <$> (part_at file N <$> seq 0 N)) = elems file)
    by (by apply concat_parts).
  split_and!.
  - by apply splitFile_spec.
  - by rewrite length_fmap, length_seq.
  - done.
  - unfold len at 2. rewrite <- Hcat. apply sum_len_concat.
  - intros i p Hi Hp. rewrite list_lookup_fmap, lookup_seq_lt in Hp by lia.
    cbn in Hp. injection Hp as <-. by apply len_part_at_inner.
  - exists (part_at file N (N - 1)). split.
    + rewrite list_lookup_fmap, lookup_seq_lt by lia. done.
    + by apply len_part_at_last.
  - intros H6 HL. subst N. rewrite H6. cbn [seq fmap list_fmap].
    pose proof (len_part_at_last file 6 ltac:(lia)) as Hlast.
    change (6 - 1) with 5 in Hlast.
    rewrite Hlast, !len_part_at_inner, HL by (cbn; lia). done.
Qed.

Lemma C3_splitFile_parts_witness :
  1 ≤ length main_servers
  ∧ ∃ parts : list slice,
      splitFile main_servers sample601 = Val parts
      ∧ len <$> parts = [100; 100; 100; 100; 100; 101].
Proof.
  split; [cbn; lia|].
  destruct (C3_splitFile_parts main_servers sample601 ltac:(cbn; lia))
    as (parts & Hsplit & _ & _ & _ & _ & _ & Hsizes).
  exists parts. split; [exact Hsplit|]. apply Hsizes; reflexivity.
Defined.

(** ** The in-memory backend *)

Section Mock.

Implicit Types (s : mockStorageServer) (calls : list saveCall) (name : string).

Lemma storage_saveAll s calls name :
  storage (saveAll s calls) !! name
  = match lastSaved name calls with
    | Some ch => Some ch
    | None => storage s !! name
    end.
Proof.
  induction calls as [|[[n o] d] calls IH] using rev_ind; [done|].
  unfold saveAll, lastSaved in *. rewrite foldl_app, omap_app. cbn.
  destruct (decide (n = name)) as [->|Hne].
  - rewrite last_snoc. apply lookup_insert_eq.
  - cbn. rewrite app_nil_r, lookup_insert_ne by done. apply IH.
Qed.

Lemma lastSaved_None name calls :
  lastSaved name calls = None ↔ name ∉ calls.*1.*1.
Proof.
  unfold lastSaved. rewrite last_None.
  induction calls as [|[[n o] d] calls IH]; cbn.
  - split; [intros _; apply not_elem_of_nil | done].
  - rewrite not_elem_of_cons. destruct (decide (n = name)) as [->|Hne].
    + split; [done | intros [? _]; done].
    + rewrite IH. intuition congruence.
Qed.

End Mock.

(** C9. On the in-memory backend, after any sequence of SaveChunk calls on a
    fresh server, GetChunk(name) fails with the not-found error exactly when
    no call named name, and otherwise returns the chunk of the latest call
    that did; SaveChunk never fails; the key is the name alone, so a second
    SaveChunk under a name leaves the server as if only it had happened. *)
Theorem C9_mock_GetChunk (a : string) (calls : list saveCall) (name : string) :
  let s := saveAll (newStorageClient a) calls in
  (GetChunk s name = inr (ErrResourceNotFound name) ↔ name ∉ calls.*1.*1)
  ∧ (name ∈ calls.*1.*1 →
       ∃ ch, lastSaved name calls = Some ch ∧ GetChunk s name = inl ch)
  ∧ (∀ o1 d1 o2 d2,
       SaveChunk (SaveChunk s name o1 d1).1 name o2 d2 = SaveChunk s name o2 d2
       ∧ (SaveChunk s name o2 d2).2 = None
       ∧ GetChunk (SaveChunk (SaveChunk s name o1 d1).1 name o2 d2).1 name
         = inl (mkChunk o2 d2)).
Proof.
  intros s.
  assert (Hget : GetChunk s name
                 = match lastSaved name calls with
                   | Some ch => inl ch
                   | None => inr (ErrResourceNotFound name)
                   end).
  { cbn. unfold mock_GetChunk. subst s. rewrite storage_saveAll.
    destruct (lastSaved name calls); [done|].
    unfold newStorageClient. cbn. by rewrite lookup_empty. }
  split_and!.
  - rewrite Hget, <- lastSaved_None. by destruct (lastSaved name calls).
  - intros Hin. destruct (lastSaved name calls) as [ch|] eqn:E.
    + by exists ch.
    + apply lastSaved_None in E. done.
  - intros o1 d1 o2 d2. cbn. unfold mock_SaveChunk, mock_GetChunk. cbn.
    rewrite insert_insert_eq, lookup_insert_eq. done.
Qed.

Lemma C9_mock_GetChunk_witness :
  "r1" ∈ sampleCalls.*1.*1
  ∧ GetChunk (saveAll (newStorageClient "http://localhost:8081") sampleCalls) "r1"
    = inl (mkChunk 2 (mkSlice (sampleBytes 5) [])).
Proof.
  assert (Hin : "r1" ∈ sampleCalls.*1.*1) by (cbn; apply list_elem_of_here).
  split; [exact Hin|].
  destruct (C9_mock_GetChunk "http://localhost:8081" sampleCalls "r1")
    as (_ & Hlast & _).
  destruct (Hlast Hin) as (ch & Hch & ->).
  f_equal. vm_compute in Hch. by injection Hch.
Defined.

(** ** The goroutines of one upload *)

Section UploadRun.

Context {S : Type} `{!StorageClient S}.

Implicit Types (j : job) (u : upload S) (sched : list nat) (i k : nat).

Lemma step_sized j u i : sized j u → sized j (uploadFn_step j u i).
Proof.
  intros [Ht Hs]. unfold uploadFn_step.
  destruct (up_tasks u !! i) as [[| |e]|] eqn:Ep; [| |done|done].
  - split; cbn; [by rewrite length_insert | done].
  - destruct (up_servers u !! i) as [srv|]; [|done].
    destruct (job_parts j !! i) as [part|]; [|done].
    destruct (SaveChunk srv (job_resourceID j) i part) as [srv' err].
    split; cbn; by rewrite length_insert.
Qed.

Lemma run_sized j u sched : sized j u → sized j (run j u sched).
Proof.
  revert u. induction sched as [|i sched IH]; intros u Hu; [done|].
  cbn. apply IH. by apply step_sized.
Qed.

Lemma step_other j u i k :
  i ≠ k → up_tasks (uploadFn_step j u i) !! k = up_tasks u !! k.
Proof.
  intros Hik. unfold uploadFn_step.
  destruct (up_tasks u !! i) as [[| |e]|] eqn:Ep; [| |done|done].
  - cbn. by rewrite list_lookup_insert_ne.
  - destruct (up_servers u !! i) as [srv|]; [|done].
    destruct (job_parts j !! i) as [part|]; [|done].
    destruct (SaveChunk srv (job_resourceID j) i part) as [srv' err].
    cbn. by rewrite list_lookup_insert_ne.
Qed.

Lemma step_self j u i p :
  sized j u → up_tasks u !! i = Some p →
  ∃ p', up_tasks (uploadFn_step j u i) !! i = Some p'
        ∧ rank p' = Nat.min 2 (rank p + 1).
Proof.
  intros [Ht Hs] Hp. pose proof (lookup_lt_Some _ _ _ Hp) as Hlt.
  unfold uploadFn_step. rewrite Hp. destruct p as [| |e].
  - exists Recorded. cbn. by rewrite list_lookup_insert_eq.
  - destruct (lookup_lt_is_Some_2 (up_servers u) i) as [srv ->]; [lia|].
    destruct (lookup_lt_is_Some_2 (job_parts j) i) as [part ->]; [lia|].
    destruct (SaveChunk srv (job_resourceID j) i part) as [srv' err].
    eexists. cbn. by rewrite list_lookup_insert_eq.
  - by exists (Returned e).
Qed.

Lemma run_progress j u sched k p :
  sized j u → up_tasks u !! k = Some p →
  ∃ p', up_tasks (run j u sched) !! k = Some p'
        ∧ rank p ≤ rank p'
        ∧ (k ∈ sched → Nat.min 2 (rank p + 1) ≤ rank p').
Proof.
  revert u p. induction sched as [|i sched IH]; intros u p Hu Hp.
  - exists p. split_and!; [done|done|]. by intros ?%elem_of_nil.
  - change (run j u (i :: sched)) with (run j (uploadFn_step j u i) sched).
    destruct (decide (i = k)) as [->|Hik].
    + destruct (step_self j u k p Hu Hp) as (p1 & Hp1 & Hr1).
      destruct (IH _ p1 (step_sized j u k Hu) Hp1) as (p' & Hp' & Hle & _).
      assert (rank p ≤ 2) by (destruct p; cbn; lia).
      exists p'. split_and!; [done|lia|intros _; lia].
    + destruct (IH (uploadFn_step j u i) p (step_sized j u i Hu)) as (p' & Hp' & Hle & Hin).
      { by rewrite step_other. }
      exists p'. split_and!; [done|done|].
      intros [?|?]%elem_of_cons; [congruence|auto].
Qed.

(* after the wait every goroutine has returned *)
Lemma wait_returned j u k :
  sized j u → k < length (job_parts j) →
  ∃ e, up_tasks (upload_wait j u) !! k = Some (Returned e).
Proof.
  intros Hu Hk. unfold upload_wait.
  set (ids := seq 0 (length (job_parts j))).
  replace (run j u (ids ++ ids)) with (run j (run j u ids) ids)
    by (unfold run; by rewrite foldl_app).
  assert (Hin : k ∈ ids) by (apply elem_of_seq; lia).
  destruct (lookup_lt_is_Some_2 (up_tasks u) k) as [p Hp]; [destruct Hu; lia|].
  destruct (run_progress j u ids k p Hu Hp) as (p1 & Hp1 & _ & H1).
  destruct (run_progress j (run j u ids) ids k p1 (run_sized j u ids Hu) Hp1)
    as (p2 & Hp2 & _ & H2).
  specialize (H1 Hin). specialize (H2 Hin).
  rewrite Hp2. assert (Hr : 2 ≤ rank p2) by lia. clear H1 H2.
  destruct p2 as [| |e]; cbn in Hr; [lia|lia|by exists e].
Qed.

Lemma start_recorded (w : world S) j : recorded j (upload_start w j).
Proof.
  unfold recorded, orders, upload_start, dbGet. cbn.
  rewrite lookup_insert_eq. cbn. split_and!.
  - constructor.
  - intros i. split; [by intros ?%elem_of_nil|].
    intros (p & Hp & Hr). apply lookup_replicate in Hp as [-> _]. cbn in Hr. lia.
  - by intros info ?%elem_of_nil.
Qed.

Lemma step_recorded j u i : recorded j u → recorded j (uploadFn_step j u i).
Proof.
  intros (Hnd & Hin & Hrec). unfold uploadFn_step.
  destruct (up_tasks u !! i) as [[| |e]|] eqn:Ep; [| |done|done].
  - pose proof (lookup_lt_Some _ _ _ Ep) as Hlt.
    assert (Hfresh : i ∉ orders j u).
    { intros (p & Hp & Hr)%Hin. rewrite Ep in Hp. injection Hp as <-. cbn in Hr. lia. }
    unfold recorded, orders, dbGet in *. cbn. rewrite lookup_insert_eq. cbn.
    rewrite fmap_app. cbn. split_and!.
    + apply NoDup_app. split_and!; [done| |apply NoDup_singleton].
      intros k Hk ?%list_elem_of_singleton. by subst.
    + intros k. rewrite elem_of_app, list_elem_of_singleton, Hin.
      destruct (decide (k = i)) as [->|Hne].
      * rewrite list_lookup_insert_eq by done. split; [|by right].
        intros _. exists Recorded. split; [done|cbn; lia].
      * rewrite list_lookup_insert_ne by done. intuition congruence.
    + intros info [Hi|Hi%list_elem_of_singleton]%elem_of_app; [by apply Hrec|by subst].
  - destruct (up_servers u !! i) as [srv|]; [|done].
    destruct (job_parts j !! i) as [part|]; [|done].
    destruct (SaveChunk srv (job_resourceID j) i part) as [srv' err].
    pose proof (lookup_lt_Some _ _ _ Ep) as Hlt.
    unfold recorded, orders in *. cbn. split_and!; [done| |done].
    intros k. rewrite Hin. destruct (decide (k = i)) as [->|Hne].
    + rewrite list_lookup_insert_eq, Ep by done. split; intros _.
      * eexists. split; [done|cbn; lia].
      * exists Recorded. split; [done|cbn; lia].
    + by rewrite list_lookup_insert_ne.
Qed.

Lemma run_recorded j u sched : recorded j u → recorded j (run j u sched).
Proof.
  revert u. induction sched as [|i sched IH]; intros u Hu; [done|].
  apply IH. by apply step_recorded.
Qed.

End UploadRun.

(** C2 (as the code has it). In every state that the goroutines of an upload
    can reach, the record of part i is in the registry exactly when goroutine
    i has left its locked section: it is there while SaveChunk is still to be
    called, and it stays whatever SaveChunk returns. The records are without
    duplicates and carry the resource identifier, the file name and "TBD". *)
Theorem C2_record_precedes_SaveChunk {S : Type} `{!StorageClient S}
    (w : world S) (j : job) (sched : list nat) (i : nat) :
  let u := run j (upload_start w j) sched in
  (i ∈ orders j u ↔
     up_tasks u !! i = Some Recorded ∨ ∃ e, up_tasks u !! i = Some (Returned e))
  ∧ NoDup (orders j u)
  ∧ (∀ info, info ∈ dbGet (up_db u) (job_resourceID j) →
       info = mkInfo (job_resourceID j) (job_filename j) (Order info) "TBD").
Proof.
  intros u.
  destruct (run_recorded j _ sched (start_recorded w j)) as (Hnd & Hin & Hrec).
  fold u in Hnd, Hin, Hrec. split_and!; [|done|done].
  rewrite Hin. split.
  - intros ([| |e] & Hp & Hr); cbn in Hr; [lia|by left|right; by exists e].
  - intros [Hp|[e Hp]]; eexists; (split; [exact Hp|cbn; lia]).
Qed.

Section UploadDone.

Context {S : Type} `{!StorageClient S}.

Lemma start_sized (w : world S) (j : job) :
  length (job_parts j) = length (servers w) → sized j (upload_start w j).
Proof. intros Hn. split; cbn; [by rewrite length_replicate | done]. Qed.

Lemma upload_end_orders (w : world S) (j : job) (sched : list nat) :
  length (job_parts j) = length (servers w) →
  orders j (upload_end w j sched) ≡ₚ seq 0 (length (servers w)).
Proof.
  intros Hn. unfold upload_end.
  pose proof (run_sized j _ sched (start_sized w j Hn)) as Hsz.
  pose proof (run_recorded j _ sched (start_recorded w j)) as Hrec.
  set (u := run j (upload_start w j) sched) in *.
  assert (Hsz' : sized j (upload_wait j u)) by (by apply run_sized).
  assert (Hrec' : recorded j (upload_wait j u)) by (by apply run_recorded).
  destruct Hrec' as (Hnd & Hin & _).
  apply NoDup_Permutation; [done|apply NoDup_seq|].
  intros k. rewrite Hin, elem_of_seq. split.
  - intros (p & Hp & _). apply lookup_lt_Some in Hp. destruct Hsz'. lia.
  - intros [_ Hk]. destruct (wait_returned j u k Hsz) as [e He]; [lia|].
    eexists. split; [exact He|cbn; lia].
Qed.

Lemma upload_end_servers (w : world S) (j : job) (sched : list nat) :
  length (job_parts j) = length (servers w) →
  length (up_servers (upload_end w j sched)) = length (servers w).
Proof.
  intros Hn.
  destruct (run_sized j _ (seq 0 (length (job_parts j)) ++ seq 0 (length (job_parts j)))
              (run_sized j _ sched (start_sized w j Hn))) as [_ Hs].
  unfold upload_end, upload_wait. lia.
Qed.

Lemma step_other_keys (j : job) (u : upload S) (i : nat) (id : string) :
  id ≠ job_resourceID j →
  up_db (uploadFn_step j u i) !! id = up_db u !! id.
Proof.
  intros Hid. unfold uploadFn_step.
  destruct (up_tasks u !! i) as [[| |e]|]; [| |done|done].
  - cbn. by rewrite lookup_insert_ne.
  - destruct (up_servers u !! i) as [srv|]; [|done].
    destruct (job_parts j !! i) as [part|]; [|done].
    by destruct (SaveChunk srv (job_resourceID j) i part).
Qed.

Lemma run_other_keys (j : job) (u : upload S) (sched : list nat) (id : string) :
  id ≠ job_resourceID j →
  up_db (run j u sched) !! id = up_db u !! id.
Proof.
  intros Hid. revert u. induction sched as [|i sched IH]; intros u; [done|].
  cbn. unfold run in IH. rewrite IH. by apply step_other_keys.
Qed.

(* an upload writes to the registry under its own identifier only *)
Lemma uploadHandler_other_keys sha256_Sum growth (w : world S) (r : request)
    (uuid : string) (sched : list nat) (id : string) :
  id ≠ uuid →
  fileChunksDB (uploadHandler sha256_Sum growth w r uuid sched).2 !! id
  = fileChunksDB w !! id.
Proof.
  intros Hid. unfold uploadHandler.
  destruct (negb (Method r =? "POST")%string); [done|].
  destruct (FormFile r) as [fh|]; [|done].
  cbn [ioCopy].
  destruct (ioReadAll growth (drained (openFile (Body fh)))) as [fileBytes file].
  destruct (splitFile (servers w) fileBytes) as [parts|p]; [|done].
  set (j := mkJob uuid (Filename fh) parts).
  assert (Hdb : up_db (upload_wait j (run j (upload_start w j) sched)) !! id
                = fileChunksDB w !! id).
  { unfold upload_wait. rewrite !run_other_keys by done.
    cbn. by rewrite lookup_insert_ne. }
  by destruct (existsb task_failed _).
Qed.


End UploadDone.

(** C6. When an upload completes successfully, the Order values of the
    records stored under its resource identifier are 0, ..., N-1 for the N
    configured backends, each exactly once. *)
Theorem C6_orders_complete {S : Type} `{!StorageClient S}
    (sha256_Sum : list byte → list byte) (growth : nat → nat)
    (w w' : world S) (r : request) (uuid : string) (sched : list nat)
    (payload : uploadResponse) :
  uploadHandler sha256_Sum growth w r uuid sched = (Val (Created payload), w') →
  Resource payload = uuid
  ∧ Order <$> dbGet (fileChunksDB w') uuid ≡ₚ seq 0 (length (servers w))
  ∧ NoDup (Order <$> dbGet (fileChunksDB w') uuid)
  ∧ length (servers w') = length (servers w).
Proof.
  unfold uploadHandler. intros Hup.
  destruct (negb (Method r =? "POST")%string); [done|].
  destruct (FormFile r) as [fh|]; [|done].
  cbn [ioCopy] in Hup.
  destruct (ioReadAll growth (drained (openFile (Body fh)))) as [fileBytes file] eqn:Eread.
  destruct (decide (length (servers w) = 0)) as [H0|HN].
  { unfold splitFile in Hup. rewrite H0 in Hup. done. }
  rewrite splitFile_spec in Hup by lia.
  set (parts := part_at fileBytes (length (servers w)) <$> seq 0 (length (servers w))) in *.
  set (j := mkJob uuid (Filename fh) parts) in *.
  assert (Hn : length (job_parts j) = length (servers w))
    by (cbn; unfold parts; by rewrite length_fmap, length_seq).
  fold (upload_end w j sched) in Hup.
  destruct (existsb task_failed (up_tasks (upload_end w j sched))); [done|].
  injection Hup as <- <-. cbn.
  pose proof (upload_end_orders w j sched Hn) as Hperm.
  split_and!; [done|exact Hperm| |by apply upload_end_servers].
  unfold orders in Hperm. cbn in Hperm. rewrite Hperm. apply NoDup_seq.
Qed.

Lemma C6_orders_complete_witness :
  ∃ payload w',
    uploadHandler sampleDigest sampleGrowth sampleWorld sampleUpload "id-1" [1; 0; 1]
    = (Val (Created payload), w')
    ∧ Order <$> dbGet (fileChunksDB w') "id-1" ≡ₚ seq 0 6.
Proof.
  set (out := uploadHandler sampleDigest sampleGrowth sampleWorld sampleUpload "id-1" [1; 0; 1]).
  assert (Hout : out = (Val (Created (mkUploadResponse "id-1" "58575655")), out.2))
    by (vm_compute; reflexivity).
  eexists _, _. split; [exact Hout|].
  exact (proj1 (proj2 (C6_orders_complete _ _ _ _ _ _ _ _ Hout))).
Defined.

(** C2, counterexample. After goroutine 0 of the sample upload has left its
    locked section and before it calls SaveChunk, record 0 is in the
    registry; a download of the resource at that moment finds the record,
    asks backend 0 and fails there. *)
Lemma C2_counterexample :
  let u := run sampleJob (upload_start sampleWorld sampleJob) [0] in
  ¬ record_only_after_save sampleJob u
  ∧ orders sampleJob u = [0]
  ∧ up_tasks u !! 0 = Some Recorded
  ∧ downloadHandler (mkWorld (up_db u) (up_servers u)) (sampleDownload "id-1")
    = (Val (HttpError "Failed to get file chunk" StatusInternalServerError), [0]).
Proof.
  intros u.
  assert (Ho : orders sampleJob u = [0]) by (vm_compute; reflexivity).
  assert (Ht : up_tasks u !! 0 = Some Recorded) by (vm_compute; reflexivity).
  split_and!; [|done|done|vm_compute; reflexivity].
  intros Hclaim. specialize (Hclaim 0). rewrite Ho, Ht in Hclaim.
  specialize (Hclaim (list_elem_of_here _ _)). discriminate.
Qed.

(** ** The download *)

Section Download.

Context {S : Type} `{!StorageClient S}.

Implicit Types (srvs : list S) (rid : string) (info : fileChunkInfo)
  (chunks pre post : list fileChunkInfo) (st : fetch) (i : nat).

Lemma iter_passes srvs rid i info st :
  passes srvs rid info →
  download_iter srvs rid i info st
  = (Val (inl (fetchAll srvs rid i [info] st)), fetched st ++ [Order info]).
Proof.
  intros (ch & Hch & Hcap). unfold fetchAll. cbn [fmap list_fmap concat].
  unfold chunkBytes. rewrite Hch. cbn [from_option].
  unfold download_iter. unfold chunkOf in Hch.
  destruct (srvs !! Order info) as [srv|]; [|done]. cbn in Hch.
  destruct (GetChunk srv rid) as [ch'|e]; [|done]. injection Hch as ->.
  unfold reslice_to, reslice.
  replace (10 <=? cap (data ch)) with true by (symmetry; by apply Nat.leb_le).
  cbn. by rewrite app_nil_r.
Qed.

Lemma loop_passes srvs rid pre post i st :
  Forall (passes srvs rid) pre →
  download_loop srvs rid i (pre ++ post) st
  = download_loop srvs rid (i + length pre) post (fetchAll srvs rid i pre st).
Proof.
  intros Hpre. revert i st.
  induction Hpre as [|info pre Hinfo _ IH]; intros i st.
  - cbn. rewrite Nat.add_0_r. unfold fetchAll. cbn.
    rewrite !app_nil_r. by destruct st.
  - cbn [app download_loop]. rewrite iter_passes by done. rewrite IH.
    f_equal; [cbn; lia|]. unfold fetchAll. cbn.
    rewrite app_nil_r, <- !app_assoc. f_equal.
    destruct pre; cbn; [done|].
    destruct (i + 1 =? 0) eqn:E; [apply Nat.eqb_eq in E; lia|done].
Qed.

Lemma loop_all_pass srvs rid chunks i st :
  Forall (passes srvs rid) chunks →
  download_loop srvs rid i chunks st
  = (Val (inl (fetchAll srvs rid i chunks st)), fetched st ++ (Order <$> chunks)).
Proof.
  intros Hall. rewrite <- (app_nil_r chunks) at 1.
  rewrite loop_passes by done. done.
Qed.

(* whatever happens, the backends are asked in the stored order *)
Lemma loop_log_prefix srvs rid chunks i st :
  ∃ done_, (download_loop srvs rid i chunks st).2 = fetched st ++ done_
           ∧ done_ `prefix_of` (Order <$> chunks).
Proof.
  revert i st. induction chunks as [|info chunks IH]; intros i st.
  - exists []. cbn. by rewrite app_nil_r.
  - cbn [download_loop]. unfold download_iter.
    destruct (srvs !! Order info) as [srv|].
    2:{ exists []. cbn. rewrite app_nil_r. split; [done|apply prefix_nil]. }
    destruct (GetChunk srv rid) as [ch|e].
    2:{ exists [Order info]. cbn. split; [done|]. apply prefix_cons, prefix_nil. }
    destruct (reslice_to (data ch) 10) as [s|p].
    2:{ exists [Order info]. cbn. split; [done|]. apply prefix_cons, prefix_nil. }
    destruct (IH (i + 1) (mkFetch (buf st ++ elems (data ch))
                            (if i =? 0 then FileName info else fileName st)
                            (fetched st ++ [Order info])))
      as (d & Hd & Hpre).
    exists (Order info :: d). cbn in Hd. rewrite Hd, <- app_assoc. cbn.
    split; [done|]. by apply prefix_cons.
Qed.

Lemma reslice_to_Val (d : slice) (hi : nat) (s : slice) :
  reslice_to d hi = Val s → hi ≤ cap d.
Proof.
  unfold reslice_to, reslice. cbn.
  destruct (hi <=? cap d) eqn:E; [|done]. intros _. by apply Nat.leb_le.
Qed.

Lemma reslice_to_low (d : slice) (hi : nat) :
  cap d < hi → reslice_to d hi = Panic SliceBoundsOutOfRange.
Proof.
  intros Hlt. unfold reslice_to, reslice. cbn.
  destruct (hi <=? cap d) eqn:E; [|done]. apply Nat.leb_le in E. lia.
Qed.

(* the loop runs to its end only if every record passes *)
Lemma loop_inl_passes srvs rid chunks i st st' log :
  download_loop srvs rid i chunks st = (Val (inl st'), log) →
  Forall (passes srvs rid) chunks.
Proof.
  revert i st. induction chunks as [|info chunks IH]; intros i st Hloop;
    [constructor|].
  cbn [download_loop] in Hloop. unfold download_iter in Hloop.
  destruct (srvs !! Order info) as [srv|] eqn:Esrv; [|done].
  destruct (GetChunk srv rid) as [ch|e] eqn:Eget; [|done].
  destruct (reslice_to (data ch) 10) as [s|p] eqn:Eslice; [|done].
  constructor; [|by eapply IH].
  exists ch. split; [|by eapply reslice_to_Val].
  unfold chunkOf. rewrite Esrv. cbn. by rewrite Eget.
Qed.

Lemma passes_dec srvs rid info :
  {passes srvs rid info} + {¬ passes srvs rid info}.
Proof.
  unfold passes. destruct (chunkOf srvs rid info) as [ch|].
  - destruct (le_dec 10 (cap (data ch))) as [Hle|Hlt].
    + left. by exists ch.
    + right. intros (ch' & [= <-] & ?). lia.
  - right. by intros (ch' & [=] & _).
Qed.

(* the records up to the first that does not pass *)
Lemma first_stop srvs rid chunks :
  Forall (passes srvs rid) chunks
  ∨ ∃ pre info post, chunks = pre ++ info :: post
      ∧ Forall (passes srvs rid) pre ∧ ¬ passes srvs rid info.
Proof.
  induction chunks as [|info chunks IH]; [by left|].
  destruct (passes_dec srvs rid info) as [Hp|Hn].
  - destruct IH as [Hall|(pre & bad & post & -> & Hpre & Hbad)].
    + left. by constructor.
    + right. exists (info :: pre), bad, post. split_and!; [done| |done].
      by constructor.
  - right. by exists [], info, chunks.
Qed.

(* the loop at a record whose backend fails *)
Lemma loop_GetChunk_fails srvs rid pre info post srv e i st :
  Forall (passes srvs rid) pre →
  srvs !! Order info = Some srv → GetChunk srv rid = inr e →
  download_loop srvs rid i (pre ++ info :: post) st
  = (Val (inr (HttpError "Failed to get file chunk" StatusInternalServerError)),
     fetched st ++ (Order <$> pre ++ [info])).
Proof.
  intros Hpre Hsrv Hget. rewrite loop_passes by done.
  cbn [download_loop]. unfold download_iter. rewrite Hsrv, Hget. cbn.
  by rewrite fmap_app, app_assoc.
Qed.

(* the loop at a chunk whose capacity is below 10 *)
Lemma loop_low_cap srvs rid pre info post ch i st :
  Forall (passes srvs rid) pre →
  chunkOf srvs rid info = Some ch → cap (data ch) < 10 →
  download_loop srvs rid i (pre ++ info :: post) st
  = (Panic SliceBoundsOutOfRange, fetched st ++ (Order <$> pre ++ [info])).
Proof.
  intros Hpre Hch Hcap. rewrite loop_passes by done.
  cbn [download_loop]. unfold download_iter. unfold chunkOf in Hch.
  destruct (srvs !! Order info) as [srv|]; [|done]. cbn in Hch.
  destruct (GetChunk srv rid) as [ch'|e]; [|done]. injection Hch as ->.
  rewrite reslice_to_low by done. cbn. by rewrite fmap_app, app_assoc.
Qed.

(* the handler past its checks of the request and of the registry *)
Lemma handler_loop (w : world S) (r : request) chunks :
  Method r = "GET" → resource_id r ≠ "" →
  fileChunksDB w !! resource_id r = Some chunks → chunks ≠ [] →
  downloadHandler w r
  = match download_loop (servers w) (resource_id r) 0 chunks (mkFetch [] "" []) with
    | (Panic p, log) => (Panic p, log)
    | (Val (inr early), log) => (Val early, log)
    | (Val (inl st), log) =>
        match string_prefix (buf st) 10 with
        | Panic p => (Panic p, log)
        | Val _ => (Val (Attachment (fileName st) (buf st)), log)
        end
    end.
Proof.
  intros Hm Hid Hdb Hne. unfold downloadHandler. rewrite Hm, Hdb.
  apply String.eqb_neq in Hid. rewrite Hid. cbn [String.eqb negb].
  destruct chunks; done.
Qed.

(* the loop returns early only with the answer to a failed fetch *)
Lemma loop_early srvs rid chunks i st early log :
  download_loop srvs rid i chunks st = (Val (inr early), log) →
  early = HttpError "Failed to get file chunk" StatusInternalServerError.
Proof.
  revert i st. induction chunks as [|info chunks IH]; intros i st Hloop; [done|].
  cbn [download_loop] in Hloop. unfold download_iter in Hloop.
  destruct (srvs !! Order info) as [srv|]; [|done].
  destruct (GetChunk srv rid) as [ch|e]; [|by injection Hloop as <- _].
  destruct (reslice_to (data ch) 10) as [s|p]; [|done].
  by eapply IH.
Qed.

End Download.




(** C8. When the loop of the download reaches a record whose GetChunk fails,
    the handler answers 500 "Failed to get file chunk" and nothing else: the
    bytes fetched so far are dropped and the later records are not asked for.
    Whenever some record of the entry has no chunk to be fetched, no
    attachment is returned at all. *)
Theorem C8_download_aborts_on_failed_fetch {S : Type} `{!StorageClient S}
    (w : world S) (r : request) (chunks : list fileChunkInfo) :
  Method r = "GET" → resource_id r ≠ "" →
  fileChunksDB w !! resource_id r = Some chunks →
  (∀ pre info post srv e,
     chunks = pre ++ info :: post →
     Forall (passes (servers w) (resource_id r)) pre →
     servers w !! Order info = Some srv → GetChunk srv (resource_id r) = inr e →
     downloadHandler w r
     = (Val (HttpError "Failed to get file chunk" StatusInternalServerError),
        Order <$> pre ++ [info]))
  ∧ ((∃ info, info ∈ chunks ∧ chunkOf (servers w) (resource_id r) info = None) →
     ∀ name body, (downloadHandler w r).1 ≠ Val (Attachment name body)).
Proof.
  intros Hm Hid Hdb. split.
  - intros pre info post srv e -> Hpre Hsrv Hget.
    rewrite (handler_loop w r _ Hm Hid Hdb) by (by destruct pre).
    by rewrite (loop_GetChunk_fails _ _ _ _ _ srv e).
  - intros (info & Hin & Hnone) name body Hres.
    destruct chunks as [|c chunks]; [by apply elem_of_nil in Hin|].
    rewrite (handler_loop w r _ Hm Hid Hdb) in Hres by done.
    destruct (download_loop (servers w) (resource_id r) 0 (c :: chunks) (mkFetch [] "" []))
      as [[[st|early]|p] log] eqn:Eloop.
    + apply loop_inl_passes in Eloop.
      rewrite Forall_forall in Eloop. destruct (Eloop info Hin) as (ch & Hch & _).
      congruence.
    + apply loop_early in Eloop. cbn in Hres. congruence.
    + done.
Qed.

Lemma C8_download_aborts_on_failed_fetch_witness :
  downloadHandler sampleMidWorld (sampleDownload "id-1")
  = (Val (HttpError "Failed to get file chunk" StatusInternalServerError), [0]).
Proof.
  refine (proj1 (C8_download_aborts_on_failed_fetch sampleMidWorld
                   (sampleDownload "id-1") [mkInfo "id-1" "a.bin" 0 "TBD"] _ _ _)
            [] (mkInfo "id-1" "a.bin" 0 "TBD") []
            (newStorageClient "http://localhost:8081") (ErrResourceNotFound "id-1")
            _ _ _ _).
  - reflexivity.
  - discriminate.
  - vm_compute. reflexivity.
  - reflexivity.
  - constructor.
  - reflexivity.
  - reflexivity.
Defined.

(** C10 (as the code has it). Take a GET request for a resource with a
    non-empty entry, every record of which has a chunk to be fetched. The
    handler panics with slice bounds out of range exactly when some fetched
    chunk has a capacity below 10 or the assembled content is shorter than
    10 bytes; otherwise it answers with the attachment. The length of a
    chunk does not matter to ch.data[:10], its capacity does. *)
Theorem C10_download_slice_panics {S : Type} `{!StorageClient S}
    (w : world S) (r : request) (chunks : list fileChunkInfo) :
  Method r = "GET" → resource_id r ≠ "" →
  fileChunksDB w !! resource_id r = Some chunks → chunks ≠ [] →
  Forall (fun info => is_Some (chunkOf (servers w) (resource_id r) info)) chunks →
  let content := concat (chunkBytes (servers w) (resource_id r) <$> chunks) in
  let lowCap := ∃ info ch, info ∈ chunks
                  ∧ chunkOf (servers w) (resource_id r) info = Some ch
                  ∧ cap (data ch) < 10 in
  ((downloadHandler w r).1 = Panic SliceBoundsOutOfRange ↔ lowCap ∨ length content < 10)
  ∧ (¬ lowCap → 10 ≤ length content →
       downloadHandler w r
       = (Val (Attachment (nameAfter 0 chunks (mkFetch [] "" [])) content),
          Order <$> chunks)).
Proof.
  intros Hm Hid Hdb Hne Hall content lowCap.
  rewrite (handler_loop w r _ Hm Hid Hdb Hne).
  destruct (first_stop (servers w) (resource_id r) chunks)
    as [Hpass|(pre & info & post & -> & Hpre & Hbad)].
  - (* no chunk of low capacity: only the content can be too short *)
    assert (Hnolow : ¬ lowCap).
    { intros (info & ch & Hin & Hch & Hcap).
      rewrite Forall_forall in Hpass. destruct (Hpass info Hin) as (ch' & Hch' & ?).
      assert (ch' = ch) by congruence. subst. lia. }
    rewrite loop_all_pass by done. cbn [fetchAll buf fetched app].
    fold content. unfold string_prefix.
    destruct (10 <=? length content) eqn:Elen.
    + apply Nat.leb_le in Elen. split; [|done].
      split; [done|]. intros [?|?]; [done|lia].
    + apply Nat.leb_gt in Elen. split; [|intros _ ?; lia].
      split; [by right|done].
  - (* the first record that does not pass has a chunk of low capacity *)
    rewrite Forall_forall in Hall.
    destruct (Hall info) as [ch Hch]; [apply elem_of_app; right; apply list_elem_of_here|].
    assert (Hcap : cap (data ch) < 10).
    { destruct (le_lt_dec 10 (cap (data ch))); [|done].
      exfalso. apply Hbad. by exists ch. }
    assert (Hlow : lowCap).
    { exists info, ch. split_and!; [|done|done].
      apply elem_of_app; right; apply list_elem_of_here. }
    rewrite (loop_low_cap _ _ _ _ _ ch) by done.
    split; [|done]. split; [by left|done].
Qed.

Lemma C10_download_slice_panics_witness :
  (downloadHandler sampleEndWorld (sampleDownload "id-1")).1
  = Panic SliceBoundsOutOfRange.
Proof.
  refine (proj2 (proj1 (C10_download_slice_panics sampleEndWorld (sampleDownload "id-1")
                          (dbGet (fileChunksDB sampleEndWorld) "id-1") _ _ _ _ _)) _).
  - reflexivity.
  - discriminate.
  - vm_compute. reflexivity.
  - vm_compute. discriminate.
  - vm_compute. repeat constructor; eexists; reflexivity.
  - right. vm_compute. lia.
Defined.

(** C10, counterexample. While the sample upload is under way, goroutine 0
    having returned and goroutine 1 having appended its record only, a
    download fetches the chunk of record 0, which has 0 bytes and capacity
    512: ch.data[:10] is in range, the handler goes on to record 1 and is
    answered 500 there. A fetched chunk is shorter than 10 bytes and there
    is no panic. *)
Lemma C10_counterexample :
  ¬ short_chunk_panics sampleHalfWorld (sampleDownload "id-1")
  ∧ downloadHandler sampleHalfWorld (sampleDownload "id-1")
    = (Val (HttpError "Failed to get file chunk" StatusInternalServerError), [0; 1])
  ∧ chunkOf (servers sampleHalfWorld) "id-1" (mkInfo "id-1" "a.bin" 0 "TBD")
    = Some (mkChunk 0 (mkSlice [] (replicate 512 x00))).
Proof.
  assert (Hdl : downloadHandler sampleHalfWorld (sampleDownload "id-1")
                = (Val (HttpError "Failed to get file chunk" StatusInternalServerError),
                   [0; 1]))
    by (vm_compute; reflexivity).
  assert (Hch : chunkOf (servers sampleHalfWorld) "id-1" (mkInfo "id-1" "a.bin" 0 "TBD")
                = Some (mkChunk 0 (mkSlice [] (replicate 512 x00))))
    by (vm_compute; reflexivity).
  split_and!; [|exact Hdl|exact Hch].
  intros Hclaim.
  specialize (Hclaim (mkInfo "id-1" "a.bin" 0 "TBD")
                (mkChunk 0 (mkSlice [] (replicate 512 x00)))).
  rewrite Hdl in Hclaim. cbn [fst snd] in Hclaim.
  assert (Hpanic : Val (HttpError "Failed to get file chunk" StatusInternalServerError)
                   = @Panic reply SliceBoundsOutOfRange); [|discriminate Hpanic].
  apply Hclaim; [vm_compute; apply list_elem_of_here|apply list_elem_of_here
                |exact Hch|cbn; lia].
Qed.

(* what the download does with an entry: it asks the backends in the stored
   order, the backend of a record being the one at index Order, and an
   attachment, when one is returned, is the concatenation of the chunks in
   that order under the file name of the first record *)
Lemma download_stored_order {S : Type} `{!StorageClient S}
    (w : world S) (r : request) (chunks : list fileChunkInfo) :
  Method r = "GET" → resource_id r ≠ "" →
  fileChunksDB w !! resource_id r = Some chunks → chunks ≠ [] →
  let content := concat (chunkBytes (servers w) (resource_id r) <$> chunks) in
  (downloadHandler w r).2 `prefix_of` (Order <$> chunks)
  ∧ (∀ name body,
       (downloadHandler w r).1 = Val (Attachment name body) →
       (downloadHandler w r).2 = Order <$> chunks
       ∧ body = content
       ∧ Some name = FileName <$> head chunks)
  ∧ (Forall (passes (servers w) (resource_id r)) chunks → 10 ≤ length content →
       (downloadHandler w r).1
       = Val (Attachment (nameAfter 0 chunks (mkFetch [] "" [])) content)).
Proof.
  intros Hm Hid Hdb Hne content.
  rewrite (handler_loop w r _ Hm Hid Hdb Hne).
  split_and!.
  - destruct (loop_log_prefix (servers w) (resource_id r) chunks 0 (mkFetch [] "" []))
      as (d & Hd & Hpre).
    destruct (download_loop (servers w) (resource_id r) 0 chunks (mkFetch [] "" []))
      as [[[st|early]|p] log]; cbn in Hd; subst log; [|done|done].
    by destruct (string_prefix (buf st) 10).
  - intros name body Hres.
    destruct (download_loop (servers w) (resource_id r) 0 chunks (mkFetch [] "" []))
      as [[[st|early]|p] log] eqn:Eloop; [| |done].
    + pose proof (loop_inl_passes _ _ _ _ _ _ _ Eloop) as Hpass.
      rewrite loop_all_pass in Eloop by done. injection Eloop as <- <-.
      cbn [fetchAll buf fileName fetched app] in Hres |- *.
      destruct (string_prefix _ 10); [|done]. cbn in Hres.
      injection Hres as <- <-. split_and!; [done|done|].
      by destruct chunks.
    + apply loop_early in Eloop. subst early. done.
  - intros Hpass Hlen. rewrite loop_all_pass by done.
    cbn [fetchAll buf fileName fetched app]. fold content. unfold string_prefix.
    replace (10 <=? length content) with true by (symmetry; by apply Nat.leb_le).
    done.
Qed.

(** C5, the code when goroutine 1 takes the lock first. The records of the
    sample upload are then stored in the order 1,0,2,3,4,5, which is not
    ascending, and the download asks the backends in that order. With two
    backends holding the halves of a 12-byte buffer and the same schedule,
    every record still names the backend of its own Order, and the download
    returns the second half of the file before the first. *)
Theorem C5_download_out_of_order :
  ¬ ascending (Order <$> dbGet (fileChunksDB sampleEndWorld) "id-1")
  ∧ Order <$> dbGet (fileChunksDB sampleEndWorld) "id-1" = [1; 0; 2; 3; 4; 5]
  ∧ (downloadHandler sampleEndWorld (sampleDownload "id-1")).2 = [1; 0; 2; 3; 4; 5]
  ∧ downloadHandler (shortWorld [1; 0]) (sampleDownload "id-2")
    = (Val (Attachment "b.bin" (drop 6 (sampleBytes 12) ++ take 6 (sampleBytes 12))),
       [1; 0])
  ∧ drop 6 (sampleBytes 12) ++ take 6 (sampleBytes 12) ≠ sampleBytes 12.
Proof.
  assert (Ho : Order <$> dbGet (fileChunksDB sampleEndWorld) "id-1" = [1; 0; 2; 3; 4; 5])
    by (vm_compute; reflexivity).
  split_and!; [|exact Ho|vm_compute; reflexivity|vm_compute; reflexivity
               |vm_compute; discriminate].
  rewrite Ho. intros Hasc.
  specialize (Hasc 0 1 1 0 ltac:(lia) eq_refl eq_refl). lia.
Qed.

(** ** The upload handler *)

(** C4. The checksum that a successful upload returns is the hexadecimal
    encoding of the SHA-256 digest of the whole content of the uploaded
    file. *)
Theorem C4_checksum_of_whole_file {S : Type} `{!StorageClient S}
    (sha256_Sum : list byte → list byte) (growth : nat → nat)
    (w w' : world S) (r : request) (uuid : string) (sched : list nat)
    (payload : uploadResponse) :
  uploadHandler sha256_Sum growth w r uuid sched = (Val (Created payload), w') →
  ∃ fh, FormFile r = Some fh
        ∧ Checksum payload = hexEncode (sha256_Sum (Body fh)).
Proof.
  unfold uploadHandler. intros Hup.
  destruct (negb (Method r =? "POST")%string); [done|].
  destruct (FormFile r) as [fh|]; [|done].
  exists fh. split; [done|].
  cbn [ioCopy] in Hup.
  destruct (ioReadAll growth (drained (openFile (Body fh)))) as [fileBytes file].
  destruct (splitFile (servers w) fileBytes) as [parts|p]; [|done].
  destruct (existsb task_failed _); [done|].
  injection Hup as <- _. cbn. unfold unread, openFile. cbn. done.
Qed.

Lemma C4_checksum_of_whole_file_witness :
  ∃ payload w',
    uploadHandler sampleDigest sampleGrowth sampleWorld sampleUpload "id-1" []
    = (Val (Created payload), w')
    ∧ Checksum payload = hexEncode (sampleDigest (sampleBytes 601)).
Proof.
  set (out := uploadHandler sampleDigest sampleGrowth sampleWorld sampleUpload "id-1" []).
  assert (Hout : out = (Val (Created (mkUploadResponse "id-1" "58575655")), out.2))
    by (vm_compute; reflexivity).
  eexists _, _. split; [exact Hout|].
  destruct (C4_checksum_of_whole_file _ _ _ _ _ _ _ _ Hout) as (fh & Hfh & ->).
  injection Hfh as <-. reflexivity.
Defined.

(** ** An upload to the in-memory backends, as a whole *)

Section MockUpload.

Implicit Types (j : job) (u : upload mockStorageServer) (i : nat).

Lemma step_saved j u i : saved j u → saved j (uploadFn_step j u i).
Proof.
  intros Hsaved k e. unfold uploadFn_step.
  destruct (up_tasks u !! i) as [[| |e']|] eqn:Ep; [| |by apply Hsaved|by apply Hsaved].
  - cbn. destruct (decide (k = i)) as [->|Hne].
    + rewrite list_lookup_insert_eq by (by eapply lookup_lt_Some). done.
    + rewrite list_lookup_insert_ne by done. apply Hsaved.
  - destruct (up_servers u !! i) as [srv|] eqn:Es; [|by apply Hsaved].
    destruct (job_parts j !! i) as [part|] eqn:Epart; [|by apply Hsaved].
    cbn. destruct (decide (k = i)) as [->|Hne].
    + intros _. rewrite list_lookup_insert_eq by (by eapply lookup_lt_Some).
      eexists _, part. split_and!; [done|done|]. cbn. apply lookup_insert_eq.
    + rewrite !list_lookup_insert_ne by done. apply Hsaved.
Qed.

Lemma run_saved j u sched : saved j u → saved j (run j u sched).
Proof.
  revert u. induction sched as [|i sched IH]; intros u Hu; [done|].
  apply IH. by apply step_saved.
Qed.

Lemma start_saved (w : world mockStorageServer) j : saved j (upload_start w j).
Proof. intros i e [? _]%lookup_replicate. done. Qed.

(* what [io.ReadAll] returns once [io.Copy] has drained the reader *)
Lemma ioReadAll_drained growth (bytes : list byte) :
  (ioReadAll growth (drained (openFile bytes))).1 = mkSlice [] (replicate 512 x00).
Proof.
  unfold ioReadAll, unread, drained, openFile. cbn.
  rewrite drop_all. done.
Qed.

Lemma part_at_empty (spare : list byte) (parts i : nat) :
  elems (part_at (mkSlice [] spare) parts i) = []
  ∧ cap (part_at (mkSlice [] spare) parts i) = length spare.
Proof.
  unfold part_at, len. cbn [elems length].
  rewrite Nat.Div0.div_0_l, !Nat.mul_0_r.
  unfold cap, backing. destruct (i =? parts - 1); cbn; by rewrite ?drop_0.
Qed.

Lemma concat_all_nil {A B : Type} (f : A → list B) (l : list A) :
  (∀ x, x ∈ l → f x = []) → concat (f <$> l) = [].
Proof.
  induction l as [|x l IH]; intros Hall; [done|].
  cbn. rewrite (Hall x) by apply list_elem_of_here. cbn.
  apply IH. intros y Hy. apply Hall. by apply list_elem_of_further.
Qed.

(* every completed upload leaves empty chunks behind, and its download
   panics on content[:10] *)
Lemma upload_then_download (sha256_Sum : list byte → list byte) (growth : nat → nat)
    (w w' : world mockStorageServer) (r : request) (uuid : string)
    (sched : list nat) (payload : uploadResponse) :
  uploadHandler sha256_Sum growth w r uuid sched = (Val (Created payload), w') →
  uuid ≠ "" →
  (∀ info, info ∈ dbGet (fileChunksDB w') uuid →
     chunkBytes (servers w') uuid info = [])
  ∧ (downloadHandler w' (mkRequest "GET" None uuid)).1 = Panic SliceBoundsOutOfRange.
Proof.
  unfold uploadHandler. intros Hup Hid.
  destruct (negb (Method r =? "POST")%string); [done|].
  destruct (FormFile r) as [fh|]; [|done].
  cbn [ioCopy] in Hup.
  pose proof (ioReadAll_drained growth (Body fh)) as Hread.
  destruct (ioReadAll growth (drained (openFile (Body fh)))) as [fileBytes file].
  cbn [fst] in Hread. subst fileBytes.
  destruct (decide (length (servers w) = 0)) as [H0|HN].
  { unfold splitFile in Hup. rewrite H0 in Hup. done. }
  rewrite splitFile_spec in Hup by lia.
  set (fileBytes := mkSlice [] (replicate 512 x00)) in *.
  set (parts := part_at fileBytes (length (servers w)) <$> seq 0 (length (servers w))) in *.
  set (j := mkJob uuid (Filename fh) parts) in *.
  assert (Hn : length (job_parts j) = length (servers w))
    by (cbn; unfold parts; by rewrite length_fmap, length_seq).
  fold (upload_end w j sched) in Hup.
  destruct (existsb task_failed (up_tasks (upload_end w j sched))); [done|].
  injection Hup as _ <-. cbn [fileChunksDB servers].
  set (u := upload_end w j sched).
  pose proof (upload_end_orders w j sched Hn) as Hperm. fold u in Hperm.
  set (N := length (servers w)) in *.
  assert (Hsaved : saved j u) by (apply run_saved, run_saved, start_saved).
  assert (Hsz : sized j (run j (upload_start w j) sched))
    by (apply run_sized, start_sized, Hn).
  (* the chunk behind every record *)
  assert (Hchunk : ∀ info, info ∈ dbGet (up_db u) uuid →
            ∃ ch, chunkOf (up_servers u) uuid info = Some ch
                  ∧ elems (data ch) = [] ∧ cap (data ch) = 512).
  { intros info Hin.
    assert (Hlt : Order info < N).
    { apply (elem_of_seq 0 N). rewrite <- Hperm.
      unfold orders. cbn. by apply list_elem_of_fmap_2. }
    destruct (wait_returned j _ (Order info) Hsz) as [e He]; [cbn in Hn |- *; lia|].
    destruct (Hsaved _ _ He) as (srv & part & Hsrv & Hpart & Hsto).
    cbn in Hpart, Hsto. unfold parts in Hpart.
    rewrite list_lookup_fmap, lookup_seq_lt in Hpart by done.
    cbn in Hpart. injection Hpart as <-.
    exists (mkChunk (Order info) (part_at fileBytes N (Order info))).
    split.
    - unfold chunkOf. fold u in Hsrv. rewrite Hsrv. cbn. unfold mock_GetChunk.
      by rewrite Hsto.
    - cbn. destruct (part_at_empty (replicate 512 x00) N (Order info)) as [He' Hc].
      fold fileBytes in He', Hc. by rewrite He', Hc, length_replicate. }
  assert (Hbytes : ∀ info, info ∈ dbGet (up_db u) uuid →
            chunkBytes (up_servers u) uuid info = []).
  { intros info Hin. destruct (Hchunk info Hin) as (ch & Hch & He & _).
    unfold chunkBytes. by rewrite Hch. }
  split; [exact Hbytes|].
  (* the entry is there and is not empty *)
  assert (Hne : dbGet (up_db u) uuid ≠ []).
  { intros Hnil. unfold orders in Hperm.
    change (job_resourceID j) with uuid in Hperm. rewrite Hnil in Hperm.
    apply Permutation_length in Hperm. rewrite length_seq in Hperm. cbn in Hperm. lia. }
  assert (Hdb : up_db u !! uuid = Some (dbGet (up_db u) uuid)).
  { unfold dbGet in *. by destruct (up_db u !! uuid). }
  rewrite (handler_loop (mkWorld (up_db u) (up_servers u)) (mkRequest "GET" None uuid)
             _ eq_refl Hid Hdb Hne).
  cbn [servers resource_id].
  rewrite loop_all_pass.
  2:{ apply Forall_forall. intros info Hin.
      destruct (Hchunk info Hin) as (ch & Hch & _ & Hcap).
      exists ch. split; [done|lia]. }
  cbn [fetchAll buf fileName fetched app].
  by rewrite concat_all_nil.
Qed.

End MockUpload.

(** C1, the code at a 601-byte file. The upload succeeds and returns the
    identifier and the checksum of the 601 bytes, yet [io.Copy] has left the
    reader at its end, so [io.ReadAll] returns no byte: every backend stores
    an empty chunk. The download of the identifier then finds six empty
    chunks and panics on content[:10]; it does not return the file. *)
Theorem C1_download_after_upload :
  let up := uploadHandler sampleDigest sampleGrowth sampleWorld sampleUpload "id-1" [] in
  up.1 = Val (Created (mkUploadResponse "id-1" (hexEncode (sampleDigest (sampleBytes 601)))))
  ∧ chunkBytes (servers up.2) "id-1" <$> dbGet (fileChunksDB up.2) "id-1"
    = replicate 6 []
  ∧ downloadHandler up.2 (sampleDownload "id-1")
    = (Panic SliceBoundsOutOfRange, [0; 1; 2; 3; 4; 5])
  ∧ (downloadHandler up.2 (sampleDownload "id-1")).1
    ≠ Val (Attachment "a.bin" (sampleBytes 601)).
Proof.
  intros up.
  assert (Hdl : downloadHandler up.2 (sampleDownload "id-1")
                = (Panic SliceBoundsOutOfRange, [0; 1; 2; 3; 4; 5]))
    by (vm_compute; reflexivity).
  split_and!; [vm_compute; reflexivity|vm_compute; reflexivity|exact Hdl|].
  rewrite Hdl. discriminate.
Qed.

(** * Further properties *)

(** ** The splitter: sharing and degenerate sizes *)

Section SplitterMore.

Implicit Types (file : slice) (parts i : nat).

Lemma backing_part_at file parts i :
  i < parts →
  backing (part_at file parts i) = drop (i * (len file / parts)) (backing file).
Proof.
  intros Hi. pose proof (partSize_bound file parts i Hi) as Hb.
  unfold part_at, backing, len in *. set (ps := length (elems file) / parts) in *.
  destruct (i =? parts - 1); cbn.
  - by rewrite drop_app_le by lia.
  - rewrite (drop_app_le _ _ ((i + 1) * ps)) by lia.
    rewrite app_assoc. rewrite (drop_app_le _ _ (i * ps)) by lia. f_equal.
    replace ((i + 1) * ps) with (i * ps + ps) by lia.
    rewrite <- drop_drop. apply take_drop.
Qed.

End SplitterMore.

(** X1. The parts are windows on one backing array: part i starts
    i*floor(L/N) bytes into the buffer and keeps everything behind it up to
    the capacity of the buffer, so its capacity is that of the buffer less
    its offset and the bytes behind its length are those of the later
    parts. *)
Theorem X1_splitFile_parts_share_backing {S : Type} (servers : list S)
    (file : slice) (parts : list slice) (i : nat) (p : slice) :
  splitFile servers file = Val parts →
  parts !! i = Some p →
  backing p = drop (i * (len file / length servers)) (backing file)
  ∧ cap p = cap file - i * (len file / length servers)
  ∧ spare p = drop (i * (len file / length servers) + len p) (backing file).
Proof.
  intros Hsplit Hp.
  destruct (decide (length servers = 0)) as [H0|HN].
  { unfold splitFile in Hsplit. rewrite H0 in Hsplit. done. }
  rewrite splitFile_spec in Hsplit by lia. injection Hsplit as <-.
  apply list_lookup_fmap_Some in Hp as (k & Hp & Hk).
  apply lookup_seq in Hk as [-> Hi]. cbn in Hp. subst p.
  pose proof (backing_part_at file (length servers) i Hi) as Hb.
  split_and!; [done| |].
  - unfold cap at 1. rewrite <- length_app. fold (backing (part_at file (length servers) i)).
    rewrite Hb, length_drop. unfold backing, cap. by rewrite length_app.
  - rewrite <- drop_drop, <- Hb. unfold backing, len. by rewrite drop_app_length.
Qed.

Lemma X1_splitFile_parts_share_backing_witness :
  ∃ p, (part_at sample601 6 <$> seq 0 6) !! 2 = Some p ∧ cap p = 401.
Proof.
  assert (Hsplit : splitFile main_servers sample601
                   = Val (part_at sample601 6 <$> seq 0 6))
    by reflexivity.
  exists (part_at sample601 6 2). split; [reflexivity|].
  destruct (X1_splitFile_parts_share_backing _ _ _ 2 _ Hsplit eq_refl) as (_ & -> & _).
  reflexivity.
Defined.

(** X2. A buffer with fewer bytes than there are backends is not spread:
    every part but the last is empty and the last part is the whole
    buffer. *)
Theorem X2_splitFile_short_buffer {S : Type} (servers : list S)
    (file : slice) (parts : list slice) :
  len file < length servers →
  splitFile servers file = Val parts →
  ∀ i p, parts !! i = Some p →
    elems p = if i =? length servers - 1 then elems file else [].
Proof.
  intros Hshort Hsplit i p Hp.
  rewrite splitFile_spec in Hsplit by lia. injection Hsplit as <-.
  apply list_lookup_fmap_Some in Hp as (k & Hp & Hk).
  apply lookup_seq in Hk as [-> Hi]. cbn in Hp. subst p.
  unfold part_at. rewrite Nat.div_small by done. rewrite Nat.mul_0_r.
  by destruct (i =? length servers - 1).
Qed.

Lemma X2_splitFile_short_buffer_witness :
  ∃ parts,
    splitFile main_servers (mkSlice (sampleBytes 5) []) = Val parts
    ∧ elems <$> parts = [[]; []; []; []; []; sampleBytes 5].
Proof.
  assert (Hshort : len (mkSlice (sampleBytes 5) []) < length main_servers)
    by (cbn; lia).
  assert (Hsplit : splitFile main_servers (mkSlice (sampleBytes 5) [])
                   = Val (part_at (mkSlice (sampleBytes 5) []) 6 <$> seq 0 6))
    by reflexivity.
  eexists. split; [exact Hsplit|].
  pose proof (X2_splitFile_short_buffer _ _ _ Hshort Hsplit) as Hparts.
  cbn [seq fmap list_fmap].
  rewrite (Hparts 0 _ eq_refl), (Hparts 1 _ eq_refl), (Hparts 2 _ eq_refl),
    (Hparts 3 _ eq_refl), (Hparts 4 _ eq_refl), (Hparts 5 _ eq_refl).
  reflexivity.
Defined.

(** X3. The last part is never shorter than another part: it has
    floor(L/N) + (L mod N) bytes, and all parts have the same length exactly
    when N divides L. *)
Theorem X3_splitFile_last_part {S : Type} (servers : list S)
    (file : slice) (parts : list slice) :
  splitFile servers file = Val parts →
  ∃ last,
    parts !! (length servers - 1) = Some last
    ∧ len last = len file / length servers + len file `mod` length servers
    ∧ (∀ i p, parts !! i = Some p → len p ≤ len last)
    ∧ ((∀ i p, parts !! i = Some p → len p = len last)
       ↔ len file `mod` length servers = 0).
Proof.
  intros Hsplit.
  destruct (decide (length servers = 0)) as [H0|HN].
  { unfold splitFile in Hsplit. rewrite H0 in Hsplit. done. }
  rewrite splitFile_spec in Hsplit by lia. injection Hsplit as <-.
  set (N := length servers) in *. set (L := len file).
  assert (Hdiv : L = N * (L / N) + L `mod` N) by (apply Nat.div_mod_eq).
  assert (Hlast : len (part_at file N (N - 1)) = L / N + L `mod` N).
  { rewrite len_part_at_last by lia. fold L. nia. }
  assert (Hlen : ∀ i p, (part_at file N <$> seq 0 N) !! i = Some p →
            (i < N - 1 ∧ len p = L / N) ∨ (i = N - 1 ∧ len p = L / N + L `mod` N)).
  { intros i p Hp. apply list_lookup_fmap_Some in Hp as (k & Hp & Hk).
    apply lookup_seq in Hk as [-> Hi]. cbn in Hp. subst p.
    destruct (decide (i = N - 1)) as [->|Hne]; [by right|].
    left. split; [lia|]. apply len_part_at_inner. lia. }
  exists (part_at file N (N - 1)). split_and!.
  - by rewrite list_lookup_fmap, lookup_seq_lt by lia.
  - done.
  - intros i p Hp. rewrite Hlast. destruct (Hlen i p Hp) as [[_ ->]|[_ ->]]; lia.
  - rewrite Hlast. split.
    + intros Heq. destruct (decide (N = 1)) as [H1|H1].
      * rewrite H1. apply Nat.mod_1_r.
      * assert (Hp : (part_at file N <$> seq 0 N) !! 0 = Some (part_at file N 0))
          by (by rewrite list_lookup_fmap, lookup_seq_lt by lia).
        specialize (Heq 0 _ Hp). rewrite len_part_at_inner in Heq by lia.
        fold L in Heq. lia.
    + intros Hmod i p Hp. destruct (Hlen i p Hp) as [[_ ->]|[_ ->]]; lia.
Qed.

Lemma X3_splitFile_last_part_witness :
  ∃ parts last,
    splitFile main_servers sample601 = Val parts
    ∧ parts !! 5 = Some last
    ∧ len last = 101.
Proof.
  assert (Hsplit : splitFile main_servers sample601
                   = Val (part_at sample601 6 <$> seq 0 6))
    by reflexivity.
  destruct (X3_splitFile_last_part _ _ _ Hsplit) as (last & Hlast & Hlen & _).
  exists (part_at sample601 6 <$> seq 0 6), last.
  split_and!; [exact Hsplit|exact Hlast|]. rewrite Hlen. reflexivity.
Defined.

(** ** What an upload hands to the backends *)

Section DeliveryRun.

Context {S : Type} `{!StorageClient S}.

Implicit Types (w : world S) (j : job) (u : upload S) (sched : list nat) (i : nat).

Lemma start_delivered w j : delivered w j (upload_start w j).
Proof. intros i p [-> _]%lookup_replicate. done. Qed.

Lemma step_delivered w j u i : delivered w j u → delivered w j (uploadFn_step j u i).
Proof.
  intros Hd k p. unfold uploadFn_step.
  destruct (up_tasks u !! i) as [[| |e]|] eqn:Ep; [| |by apply Hd|by apply Hd].
  - cbn. destruct (decide (k = i)) as [->|Hne].
    + rewrite list_lookup_insert_eq by (by eapply lookup_lt_Some).
      intros [= <-]. by apply (Hd i Spawned).
    + rewrite list_lookup_insert_ne by done. apply Hd.
  - destruct (up_servers u !! i) as [srv|] eqn:Es; [|by apply Hd].
    destruct (job_parts j !! i) as [part|] eqn:Epart; [|by apply Hd].
    destruct (SaveChunk srv (job_resourceID j) i part) as [srv' err] eqn:Esave.
    cbn. destruct (decide (k = i)) as [->|Hne].
    + rewrite list_lookup_insert_eq by (by eapply lookup_lt_Some).
      intros [= <-]. exists srv.
      pose proof (Hd i Recorded Ep) as Hsame. cbn in Hsame.
      split_and!; [congruence| |].
      * rewrite list_lookup_insert_eq by (by eapply lookup_lt_Some).
        unfold deliver. by rewrite Epart, Esave.
      * unfold refusal. by rewrite Epart, Esave.
    + rewrite list_lookup_insert_ne by done. intros Hp.
      specialize (Hd k p Hp). destruct p; by rewrite ?list_lookup_insert_ne.
  Qed.

Lemma run_delivered w j u sched : delivered w j u → delivered w j (run j u sched).
Proof.
  revert u. induction sched as [|i sched IH]; intros u Hu; [done|].
  apply IH. by apply step_delivered.
Qed.

(* the end of an upload, backend by backend *)
Lemma upload_end_delivered w j sched i srv :
  length (job_parts j) = length (servers w) →
  servers w !! i = Some srv →
  up_servers (upload_end w j sched) !! i = Some (deliver j i srv)
  ∧ up_tasks (upload_end w j sched) !! i
    = Some (Returned (ErrUploadPart i <$> refusal j i srv)).
Proof.
  intros Hn Hsrv. pose proof (lookup_lt_Some _ _ _ Hsrv) as Hi.
  assert (Hd : delivered w j (upload_end w j sched))
    by (apply run_delivered, run_delivered, start_delivered).
  assert (Hsz : sized j (run j (upload_start w j) sched))
    by (apply run_sized, start_sized, Hn).
  destruct (wait_returned j _ i Hsz) as [e He]; [lia|].
  fold (upload_end w j sched) in He.
  destruct (Hd i _ He) as (srv' & Hsrv' & Hup & ->).
  assert (srv' = srv) by congruence. subst srv'. by rewrite He.
Qed.

Lemma upload_end_imap w j sched :
  length (job_parts j) = length (servers w) →
  up_servers (upload_end w j sched) = imap (deliver j) (servers w).
Proof.
  intros Hn. apply list_eq. intros i. rewrite list_lookup_imap.
  destruct (servers w !! i) as [srv|] eqn:Hsrv; cbn.
  - by destruct (upload_end_delivered w j sched i srv Hn Hsrv) as [-> _].
  - apply lookup_ge_None. apply lookup_ge_None in Hsrv.
    rewrite upload_end_servers by done. done.
Qed.

Lemma upload_end_failed w j sched :
  length (job_parts j) = length (servers w) →
  existsb task_failed (up_tasks (upload_end w j sched)) = true
  ↔ ∃ i srv err, servers w !! i = Some srv ∧ refusal j i srv = Some err.
Proof.
  intros Hn. rewrite existsb_exists. split.
  - intros (p & Hin & Hfail). apply list_elem_of_In, list_elem_of_lookup in Hin as [i Hp].
    assert (Hsz : sized j (upload_end w j sched))
      by (apply run_sized, run_sized, start_sized, Hn).
    destruct (lookup_lt_is_Some_2 (servers w) i) as [srv Hsrv].
    { apply lookup_lt_Some in Hp. destruct Hsz. lia. }
    destruct (upload_end_delivered w j sched i srv Hn Hsrv) as [_ Ht].
    rewrite Ht in Hp. injection Hp as <-.
    destruct (refusal j i srv) as [err|] eqn:Er; [|done].
    by exists i, srv, err.
  - intros (i & srv & err & Hsrv & Her).
    destruct (upload_end_delivered w j sched i srv Hn Hsrv) as [_ Ht].
    rewrite Her in Ht. exists (Returned (Some (ErrUploadPart i err))). split; [|done].
    apply list_elem_of_In, list_elem_of_lookup. by exists i.
Qed.

End DeliveryRun.

Section HandlerRun.

Context {S : Type} `{!StorageClient S}.

Lemma part_at_drained (n i : nat) : part_at drainedBuffer n i = drainedBuffer.
Proof.
  unfold part_at, drainedBuffer, len, backing. cbn [elems spare length].
  rewrite Nat.Div0.div_0_l, !Nat.mul_0_r.
  destruct (i =? n - 1); cbn; by rewrite ?drop_0.
Qed.

Lemma fmap_seq_const {A : Type} (f : nat → A) (x : A) (a n : nat) :
  (∀ i, f i = x) → f <$> seq a n = replicate n x.
Proof.
  intros Hf. revert a. induction n as [|n IH]; intros a; [done|].
  cbn. by rewrite Hf, IH.
Qed.

(* the handler on a POST request with a file: the goroutines run on one
   drained buffer per backend *)
Lemma uploadHandler_runs sha256_Sum growth (w : world S) (r : request)
    (uuid : string) (sched : list nat) (fh : fileHeader) :
  Method r = "POST" → FormFile r = Some fh → 1 ≤ length (servers w) →
  uploadHandler sha256_Sum growth w r uuid sched
  = let u := upload_end w (drainedJob uuid (Filename fh) (length (servers w))) sched in
    (if existsb task_failed (up_tasks u)
     then Val (HttpError "Failed to upload file to storage" StatusInternalServerError)
     else Val (Created (mkUploadResponse uuid (hexEncode (sha256_Sum (Body fh))))),
     mkWorld (up_db u) (up_servers u)).
Proof.
  intros Hm Hfh HN. unfold uploadHandler. rewrite Hm, Hfh. cbn [String.eqb negb].
  cbn [ioCopy].
  pose proof (ioReadAll_drained growth (Body fh)) as Hread.
  destruct (ioReadAll growth (drained (openFile (Body fh)))) as [fileBytes file].
  cbn [fst] in Hread. subst fileBytes. fold drainedBuffer.
  rewrite splitFile_spec by done.
  rewrite (fmap_seq_const _ drainedBuffer) by apply part_at_drained.
  fold (drainedJob uuid (Filename fh) (length (servers w))).
  fold (upload_end w (drainedJob uuid (Filename fh) (length (servers w))) sched).
  cbn zeta. unfold unread, openFile. cbn [content offset]. rewrite drop_0.
  by destruct (existsb task_failed _).
Qed.

Lemma drainedJob_sized (w : world S) (uuid filename : string) :
  length (job_parts (drainedJob uuid filename (length (servers w))))
  = length (servers w).
Proof. cbn. apply length_replicate. Qed.

Lemma drainedJob_deliver (uuid filename : string) (n i : nat) (srv : S) :
  i < n →
  deliver (drainedJob uuid filename n) i srv = (SaveChunk srv uuid i drainedBuffer).1
  ∧ refusal (drainedJob uuid filename n) i srv = (SaveChunk srv uuid i drainedBuffer).2.
Proof.
  intros Hi. unfold deliver, refusal. cbn.
  by rewrite lookup_replicate_2.
Qed.

End HandlerRun.

(** X5. Whatever the schedule of the goroutines, once they have all returned
    each backend has received exactly one SaveChunk call, that of its own
    index with its own part, on the state in which the upload found it: the
    backends end in the same state under every schedule. *)
Theorem X5_upload_each_backend_once {S : Type} `{!StorageClient S}
    (w : world S) (j : job) (sched sched' : list nat) :
  length (job_parts j) = length (servers w) →
  up_servers (upload_end w j sched) = imap (deliver j) (servers w)
  ∧ up_servers (upload_end w j sched) = up_servers (upload_end w j sched').
Proof.
  intros Hn. rewrite !upload_end_imap by done. done.
Qed.

Lemma X5_upload_each_backend_once_witness :
  up_servers (upload_end sampleWorld sampleJob [5; 4; 3; 2; 1; 0; 0; 1])
  = up_servers (upload_end sampleWorld sampleJob []).
Proof.
  refine (proj2 (X5_upload_each_backend_once sampleWorld sampleJob _ _ _)).
  reflexivity.
Defined.

(* the reply of a POST with a file and what it leaves behind *)
Lemma uploadHandler_refusal {S : Type} `{!StorageClient S}
    (sha256_Sum : list byte → list byte) (growth : nat → nat)
    (w : world S) (r : request) (uuid : string) (sched : list nat)
    (fh : fileHeader) :
  Method r = "POST" → FormFile r = Some fh → 1 ≤ length (servers w) →
  let out := uploadHandler sha256_Sum growth w r uuid sched in
  ((∀ i srv, servers w !! i = Some srv →
      (SaveChunk srv uuid i drainedBuffer).2 = None) →
   out.1 = Val (Created (mkUploadResponse uuid (hexEncode (sha256_Sum (Body fh))))))
  ∧ (out.1 = Val (HttpError "Failed to upload file to storage" StatusInternalServerError) →
     ∃ i srv err, servers w !! i = Some srv
       ∧ (SaveChunk srv uuid i drainedBuffer).2 = Some err)
  ∧ Order <$> dbGet (fileChunksDB out.2) uuid ≡ₚ seq 0 (length (servers w))
  ∧ (∀ i srv, servers w !! i = Some srv →
       servers out.2 !! i = Some (SaveChunk srv uuid i drainedBuffer).1).
Proof.
  intros Hm Hfh HN out. subst out.
  rewrite (uploadHandler_runs _ _ _ _ _ _ fh) by done. cbn zeta.
  set (j := drainedJob uuid (Filename fh) (length (servers w))).
  pose proof (drainedJob_sized w uuid (Filename fh)) as Hn. fold j in Hn.
  pose proof (upload_end_failed w j sched Hn) as Hfail.
  assert (Hrefusal : (∃ i srv err, servers w !! i = Some srv ∧ refusal j i srv = Some err)
            ↔ ∃ i srv err, servers w !! i = Some srv
                ∧ (SaveChunk srv uuid i drainedBuffer).2 = Some err).
  { split; intros (i & srv & err & Hsrv & Herr); exists i, srv, err;
      (split; [done|]);
      destruct (drainedJob_deliver uuid (Filename fh) (length (servers w)) i srv)
        as [_ Hr]; try (by eapply lookup_lt_Some);
      fold j in Hr; congruence. }
  rewrite Hrefusal in Hfail. clear Hrefusal.
  cbn [fst snd fileChunksDB servers]. split_and!.
  - intros Hnone. destruct (existsb task_failed _); [|done].
    destruct (proj1 Hfail eq_refl) as (i & srv & err & Hsrv & Herr).
    rewrite (Hnone i srv Hsrv) in Herr. done.
  - intros Hres. apply Hfail. by destruct (existsb task_failed _).
  - apply (upload_end_orders w j sched Hn).
  - intros i srv Hsrv.
    destruct (upload_end_delivered w j sched i srv Hn Hsrv) as [-> _].
    destruct (drainedJob_deliver uuid (Filename fh) (length (servers w)) i srv)
      as [Hd _]; [by eapply lookup_lt_Some|].
    fold j in Hd. by rewrite Hd.
Qed.

(* without a failed read the handler is [uploadHandler] *)
Lemma uploadHandlerIO_noFaults {S : Type} `{!StorageClient S}
    (faults : readFaults)
    (sha256_Sum : list byte → list byte) (growth : nat → nat)
    (w : world S) (r : request) (uuid : string) (sched : list nat) :
  copyFails faults = false → readAllFails faults = false →
  uploadHandlerIO faults sha256_Sum growth w r uuid sched
  = uploadHandler sha256_Sum growth w r uuid sched.
Proof.
  intros Hc Hr. unfold uploadHandlerIO, uploadHandler. rewrite Hc, Hr.
  destruct (negb (Method r =? "POST")%string); [done|].
  by destruct (FormFile r).
Qed.

(** X6. Take a POST with a file to at least one backend. If neither read of
    the file fails and no SaveChunk returns an error, the reply is 201; a
    reply 500 "Failed to upload file to storage" means that some SaveChunk
    returned an error. Under either of these two replies all N records are
    in the registry and every backend has received its call: a refusal
    neither removes a record nor stops the other writes. (That every
    refusal is answered 500 is not stated: the goroutines share one error
    variable.) *)
Theorem X6_upload_reports_refusal {S : Type} `{!StorageClient S}
    (faults : readFaults)
    (sha256_Sum : list byte → list byte) (growth : nat → nat)
    (w : world S) (r : request) (uuid : string) (sched : list nat)
    (fh : fileHeader) :
  Method r = "POST" → FormFile r = Some fh → 1 ≤ length (servers w) →
  let out := uploadHandlerIO faults sha256_Sum growth w r uuid sched in
  let created := Val (Created (mkUploadResponse uuid (hexEncode (sha256_Sum (Body fh))))) in
  let refused :=
    Val (HttpError "Failed to upload file to storage" StatusInternalServerError) in
  (copyFails faults = false → readAllFails faults = false →
   (∀ i srv, servers w !! i = Some srv →
      (SaveChunk srv uuid i drainedBuffer).2 = None) →
   out.1 = created)
  ∧ (out.1 = refused →
     ∃ i srv err, servers w !! i = Some srv
       ∧ (SaveChunk srv uuid i drainedBuffer).2 = Some err)
  ∧ (out.1 = created ∨ out.1 = refused →
     Order <$> dbGet (fileChunksDB out.2) uuid ≡ₚ seq 0 (length (servers w))
     ∧ (∀ i srv, servers w !! i = Some srv →
          servers out.2 !! i = Some (SaveChunk srv uuid i drainedBuffer).1)).
Proof.
  intros Hm Hfh HN out created refused. subst out created refused.
  destruct (uploadHandler_refusal sha256_Sum growth w r uuid sched fh Hm Hfh HN)
    as (Hok & Hrefused & Hperm & Hsrv).
  cbn zeta in Hok, Hrefused, Hperm, Hsrv.
  destruct (copyFails faults) eqn:Hc.
  { unfold uploadHandlerIO. rewrite Hm, Hfh, Hc. cbn [String.eqb negb fst].
    split_and!; [done|done|]. by intros [?|?]. }
  destruct (readAllFails faults) eqn:Hr.
  { unfold uploadHandlerIO. rewrite Hm, Hfh, Hc, Hr. cbn [String.eqb negb fst].
    split_and!; [done|done|]. by intros [?|?]. }
  rewrite uploadHandlerIO_noFaults by done.
  split_and!; [by intros _ _|done|by intros _].
Qed.

Lemma X6_upload_reports_refusal_witness :
  (uploadHandlerIO noFaults sampleDigest sampleGrowth sampleWorld sampleUpload
     "id-1" [3; 3; 0]).1
  = Val (Created (mkUploadResponse "id-1" (hexEncode (sampleDigest (sampleBytes 601))))).
Proof.
  refine (proj1 (X6_upload_reports_refusal noFaults sampleDigest sampleGrowth
            sampleWorld sampleUpload "id-1" [3; 3; 0]
            (mkFileHeader "a.bin" (sampleBytes 601)) _ _ _) _ _ _).
  - reflexivity.
  - reflexivity.
  - cbn. lia.
  - reflexivity.
  - reflexivity.
  - intros i srv _. reflexivity.
Defined.

(** X4. On the in-memory backends an upload has six outcomes and no other:
    405 for a method other than POST, 400 for a request without a file, 500
    "Failed to calculate checksum" when io.Copy fails, 500 "Failed to read
    the file" when io.ReadAll fails, a divide-by-zero panic when no backend
    is configured (these five leave the registry and the backends as they
    were), and otherwise 201 with the identifier and the checksum, under
    every schedule. *)
Theorem X4_upload_to_mocks (faults : readFaults)
    (sha256_Sum : list byte → list byte) (growth : nat → nat)
    (w : world mockStorageServer) (r : request) (uuid : string) (sched : list nat) :
  let out := uploadHandlerIO faults sha256_Sum growth w r uuid sched in
  (Method r ≠ "POST" →
     out = (Val (HttpError "Only POST is supported" StatusMethodNotAllowed), w))
  ∧ (Method r = "POST" → FormFile r = None →
       out = (Val (HttpError "Failed to get the uploaded file" StatusBadRequest), w))
  ∧ (∀ fh, Method r = "POST" → FormFile r = Some fh → copyFails faults = true →
       out = (Val (HttpError "Failed to calculate checksum" StatusInternalServerError), w))
  ∧ (∀ fh, Method r = "POST" → FormFile r = Some fh →
       copyFails faults = false → readAllFails faults = true →
       out = (Val (HttpError "Failed to read the file" StatusInternalServerError), w))
  ∧ (∀ fh, Method r = "POST" → FormFile r = Some fh →
       copyFails faults = false → readAllFails faults = false → servers w = [] →
       out = (Panic IntegerDivideByZero, w))
  ∧ (∀ fh, Method r = "POST" → FormFile r = Some fh →
       copyFails faults = false → readAllFails faults = false → servers w ≠ [] →
       out.1 = Val (Created (mkUploadResponse uuid (hexEncode (sha256_Sum (Body fh)))))).
Proof.
  intros out. subst out. split_and!.
  - intros Hm. unfold uploadHandlerIO. apply String.eqb_neq in Hm. by rewrite Hm.
  - intros Hm Hfh. unfold uploadHandlerIO. by rewrite Hm, Hfh.
  - intros fh Hm Hfh Hc. unfold uploadHandlerIO. by rewrite Hm, Hfh, Hc.
  - intros fh Hm Hfh Hc Hr. unfold uploadHandlerIO. by rewrite Hm, Hfh, Hc, Hr.
  - intros fh Hm Hfh Hc Hr Hs. rewrite uploadHandlerIO_noFaults by done.
    unfold uploadHandler. rewrite Hm, Hfh. cbn [String.eqb negb ioCopy].
    destruct (ioReadAll growth (drained (openFile (Body fh)))) as [fileBytes file].
    unfold splitFile. by rewrite Hs.
  - intros fh Hm Hfh Hc Hr Hs. rewrite uploadHandlerIO_noFaults by done.
    assert (HN : 1 ≤ length (servers w)) by (destruct (servers w); [done|cbn; lia]).
    apply (proj1 (uploadHandler_refusal sha256_Sum growth w r uuid sched fh Hm Hfh HN)).
    intros i srv _. reflexivity.
Qed.

Lemma X4_upload_to_mocks_witness :
  uploadHandlerIO noFaults sampleDigest sampleGrowth (mkWorld ∅ []) sampleUpload "id-1" []
  = (Panic IntegerDivideByZero, mkWorld ∅ [])
  ∧ (uploadHandlerIO noFaults sampleDigest sampleGrowth sampleWorld sampleUpload
       "id-1" [2; 2]).1
    = Val (Created (mkUploadResponse "id-1" (hexEncode (sampleDigest (sampleBytes 601)))))
  ∧ uploadHandlerIO (mkReadFaults false true) sampleDigest sampleGrowth sampleWorld
      sampleUpload "id-1" []
    = (Val (HttpError "Failed to read the file" StatusInternalServerError), sampleWorld).
Proof.
  split_and!.
  - refine (proj1 (proj2 (proj2 (proj2 (proj2 (X4_upload_to_mocks noFaults sampleDigest
              sampleGrowth (mkWorld ∅ []) sampleUpload "id-1" [])))))
              (mkFileHeader "a.bin" (sampleBytes 601)) _ _ _ _ _); reflexivity.
  - refine (proj2 (proj2 (proj2 (proj2 (proj2 (X4_upload_to_mocks noFaults sampleDigest
              sampleGrowth sampleWorld sampleUpload "id-1" [2; 2])))))
              (mkFileHeader "a.bin" (sampleBytes 601)) _ _ _ _ _);
      [reflexivity|reflexivity|reflexivity|reflexivity|discriminate].
  - refine (proj1 (proj2 (proj2 (proj2 (X4_upload_to_mocks (mkReadFaults false true)
              sampleDigest sampleGrowth sampleWorld sampleUpload "id-1" []))))
              (mkFileHeader "a.bin" (sampleBytes 601)) _ _ _ _); reflexivity.
Defined.

(** ** Uploads one after the other *)

Section Uploads.

Context {S : Type} `{!StorageClient S}.

(* an upload either leaves the world as it is or runs its goroutines *)
Lemma uploadHandler_cases sha256_Sum growth (w : world S) (r : request)
    (uuid : string) (sched : list nat) :
  (uploadHandler sha256_Sum growth w r uuid sched).2 = w
  ∨ ∃ fh, Method r = "POST" ∧ FormFile r = Some fh ∧ 1 ≤ length (servers w)
      ∧ (uploadHandler sha256_Sum growth w r uuid sched).2
        = let u := upload_end w (drainedJob uuid (Filename fh) (length (servers w))) sched in
          mkWorld (up_db u) (up_servers u).
Proof.
  destruct (decide (Method r = "POST")) as [Hm|Hm].
  2:{ left. unfold uploadHandler. apply String.eqb_neq in Hm. by rewrite Hm. }
  destruct (FormFile r) as [fh|] eqn:Hfh.
  2:{ left. unfold uploadHandler. by rewrite Hm, Hfh. }
  destruct (decide (length (servers w) = 0)) as [H0|HN].
  { left. unfold uploadHandler. rewrite Hm, Hfh. cbn [String.eqb negb ioCopy].
    destruct (ioReadAll growth (drained (openFile (Body fh)))) as [fileBytes file].
    unfold splitFile. by rewrite H0. }
  right. exists fh. split_and!; [done|done|lia|].
  by rewrite (uploadHandler_runs _ _ _ _ _ _ fh) by (done || lia).
Qed.

Lemma uploadHandler_length sha256_Sum growth (w : world S) (r : request)
    (uuid : string) (sched : list nat) :
  length (servers (uploadHandler sha256_Sum growth w r uuid sched).2)
  = length (servers w).
Proof.
  destruct (uploadHandler_cases sha256_Sum growth w r uuid sched)
    as [->|(fh & _ & _ & _ & ->)]; [done|].
  cbn. apply upload_end_servers, drainedJob_sized.
Qed.



(* the entry that an upload leaves under its identifier *)
Lemma uploadHandler_entry sha256_Sum growth (w : world S) (r : request)
    (uuid : string) (sched : list nat) (fh : fileHeader) :
  Method r = "POST" → FormFile r = Some fh → 1 ≤ length (servers w) →
  let w' := (uploadHandler sha256_Sum growth w r uuid sched).2 in
  fileChunksDB w' !! uuid = Some (dbGet (fileChunksDB w') uuid)
  ∧ Order <$> dbGet (fileChunksDB w') uuid ≡ₚ seq 0 (length (servers w))
  ∧ (∀ info, info ∈ dbGet (fileChunksDB w') uuid →
       info = mkInfo uuid (Filename fh) (Order info) "TBD").
Proof.
  intros Hm Hfh HN w'. subst w'.
  rewrite (uploadHandler_runs _ _ _ _ _ _ fh) by done. cbn zeta. cbn [snd fileChunksDB].
  set (j := drainedJob uuid (Filename fh) (length (servers w))).
  pose proof (drainedJob_sized w uuid (Filename fh)) as Hn. fold j in Hn.
  pose proof (upload_end_orders w j sched Hn) as Hperm.
  assert (Hrec : recorded j (upload_end w j sched))
    by (apply run_recorded, run_recorded, start_recorded).
  destruct Hrec as (_ & _ & Hinfo).
  split_and!; [|exact Hperm|exact Hinfo].
  unfold orders in Hperm. change (job_resourceID j) with uuid in Hperm.
  unfold dbGet in *. destruct (up_db (upload_end w j sched) !! uuid); [done|].
  apply Permutation_length in Hperm. rewrite length_seq in Hperm. cbn in Hperm. lia.
Qed.

End Uploads.



Section NoIndexPanic.

Context {S : Type} `{!StorageClient S}.

Lemma uploadHandler_inRange sha256_Sum growth (w : world S) (r : request)
    (uuid : string) (sched : list nat) :
  inRange w → inRange (uploadHandler sha256_Sum growth w r uuid sched).2.
Proof.
  intros Hw id chunks info Hdb Hin. rewrite uploadHandler_length.
  destruct (decide (id = uuid)) as [->|Hne].
  - destruct (uploadHandler_cases sha256_Sum growth w r uuid sched)
      as [E|(fh & Hm & Hfh & HN & _)].
    + rewrite E in Hdb. by eapply Hw.
    + destruct (uploadHandler_entry sha256_Sum growth w r uuid sched fh Hm Hfh HN)
        as (Hkey & Hperm & _).
      rewrite Hdb in Hkey. injection Hkey as Hkey. rewrite <- Hkey in Hperm.
      apply (elem_of_seq 0). rewrite <- Hperm. by apply list_elem_of_fmap_2.
  - rewrite uploadHandler_other_keys in Hdb by done. by eapply Hw.
Qed.

Lemma serveUploads_inRange sha256_Sum growth (w : world S) (calls : list uploadCall) :
  inRange w → inRange (serveUploads sha256_Sum growth w calls).
Proof.
  revert w. induction calls as [|[[r uuid] sched] calls IH]; intros w Hw; [done|].
  cbn. apply IH. by apply uploadHandler_inRange.
Qed.

Lemma loop_no_index_panic (srvs : list S) (rid : string)
    (chunks : list fileChunkInfo) (i : nat) (st : fetch) :
  (∀ info, info ∈ chunks → Order info < length srvs) →
  (download_loop srvs rid i chunks st).1 ≠ Panic IndexOutOfRange.
Proof.
  revert i st. induction chunks as [|info chunks IH]; intros i st Hall; [done|].
  cbn [download_loop]. unfold download_iter.
  destruct (lookup_lt_is_Some_2 srvs (Order info)) as [srv ->];
    [apply Hall, list_elem_of_here|].
  destruct (GetChunk srv rid) as [ch|e]; [|done].
  unfold reslice_to, reslice.
  destruct ((0 <=? 10) && (10 <=? cap (data ch))); [|done].
  apply IH. intros info' Hin. by apply Hall, list_elem_of_further.
Qed.

Lemma download_no_index_panic (w : world S) (r : request) :
  inRange w → (downloadHandler w r).1 ≠ Panic IndexOutOfRange.
Proof.
  intros Hw. unfold downloadHandler.
  destruct (negb (Method r =? "GET")%string); [done|].
  destruct (resource_id r =? "")%string; [done|].
  destruct (fileChunksDB w !! resource_id r) as [[|c chunks]|] eqn:Hdb; [done| |done].
  pose proof (loop_no_index_panic (servers w) (resource_id r) (c :: chunks) 0
                (mkFetch [] "" []) (fun info => Hw _ _ info Hdb)) as Hloop.
  destruct (download_loop (servers w) (resource_id r) 0 (c :: chunks) (mkFetch [] "" []))
    as [[[st|early]|p] log]; cbn in Hloop |- *; [|done|congruence].
  unfold string_prefix. by destruct (10 <=? length (buf st)).
Qed.

End NoIndexPanic.

(** X10. Whatever uploads have been handled since the registry was empty,
    with whatever backends, every record names a backend that exists: a
    download never panics on servers[info.Order]. *)
Theorem X10_download_never_index_panics {S : Type} `{!StorageClient S}
    (sha256_Sum : list byte → list byte) (growth : nat → nat)
    (w0 : world S) (calls : list uploadCall) (r : request) :
  fileChunksDB w0 = ∅ →
  (downloadHandler (serveUploads sha256_Sum growth w0 calls) r).1
  ≠ Panic IndexOutOfRange.
Proof.
  intros Hempty. apply download_no_index_panic, serveUploads_inRange.
  intros id chunks info Hdb. by rewrite Hempty, lookup_empty in Hdb.
Qed.

Lemma X10_download_never_index_panics_witness :
  (downloadHandler
     (serveUploads sampleDigest sampleGrowth sampleWorld [(sampleUpload, "id-1", [4])])
     (sampleDownload "id-1")).1
  ≠ Panic IndexOutOfRange.
Proof.
  apply (X10_download_never_index_panics sampleDigest sampleGrowth sampleWorld
           [(sampleUpload, "id-1", [4])] (sampleDownload "id-1")).
  reflexivity.
Defined.

(** ** What a download can return *)

Section Attachments.

Context {S : Type} `{!StorageClient S}.

Lemma not_found (w : world S) (r : request) :
  Method r = "GET" → resource_id r ≠ "" →
  fileChunksDB w !! resource_id r = None ∨ fileChunksDB w !! resource_id r = Some [] →
  downloadHandler w r = (Val (HttpError "File not found" StatusNotFound), []).
Proof.
  intros Hm Hid Hdb. unfold downloadHandler. rewrite Hm.
  apply String.eqb_neq in Hid. rewrite Hid. cbn [String.eqb negb].
  by destruct Hdb as [-> | ->].
Qed.

Lemma attachment_inv (w : world S) (r : request) (name : string) (body : list byte) :
  (downloadHandler w r).1 = Val (Attachment name body) →
  ∃ chunks,
    Method r = "GET" ∧ resource_id r ≠ ""
    ∧ fileChunksDB w !! resource_id r = Some chunks ∧ chunks ≠ []
    ∧ 10 ≤ length body
    ∧ body = concat (chunkBytes (servers w) (resource_id r) <$> chunks)
    ∧ Some name = FileName <$> head chunks.
Proof.
  intros Hres.
  assert (Hm : Method r = "GET").
  { unfold downloadHandler in Hres.
    destruct (Method r =? "GET")%string eqn:E; [by apply String.eqb_eq|done]. }
  assert (Hid : resource_id r ≠ "").
  { unfold downloadHandler in Hres. rewrite Hm in Hres. cbn [String.eqb negb] in Hres.
    destruct (resource_id r =? "")%string eqn:E; [done|by apply String.eqb_neq]. }
  destruct (fileChunksDB w !! resource_id r) as [chunks|] eqn:Hdb.
  2:{ by rewrite (not_found w r Hm Hid) in Hres by (by left). }
  destruct (decide (chunks = [])) as [->|Hne].
  { by rewrite (not_found w r Hm Hid) in Hres by (by right). }
  exists chunks.
  destruct (download_stored_order w r chunks Hm Hid Hdb Hne) as (_ & Hatt & _).
  destruct (Hatt name body Hres) as (_ & Hbody & Hname).
  split_and!; try done.
  rewrite (handler_loop w r chunks Hm Hid Hdb Hne) in Hres.
  destruct (download_loop (servers w) (resource_id r) 0 chunks (mkFetch [] "" []))
    as [[[st|early]|p] log] eqn:Eloop; [| |done].
  - unfold string_prefix in Hres.
    destruct (10 <=? length (buf st)) eqn:Elen; [|done].
    cbn in Hres. injection Hres as _ <-. by apply Nat.leb_le.
  - apply loop_early in Eloop. subst early. done.
Qed.

End Attachments.

(** X11. An attachment is returned only to a GET request with a non-empty
    identifier whose entry is not empty, it is the concatenation of the
    fetched chunks under the file name of the first record, and it has at
    least 10 bytes: from no state of the registry and the backends can a
    file shorter than 10 bytes be downloaded. *)
Theorem X11_attachment_has_ten_bytes {S : Type} `{!StorageClient S}
    (w : world S) (r : request) (name : string) (body : list byte) :
  (downloadHandler w r).1 = Val (Attachment name body) →
  10 ≤ length body
  ∧ Method r = "GET" ∧ resource_id r ≠ ""
  ∧ ∃ chunks, fileChunksDB w !! resource_id r = Some chunks ∧ chunks ≠ []
      ∧ body = concat (chunkBytes (servers w) (resource_id r) <$> chunks)
      ∧ Some name = FileName <$> head chunks.
Proof.
  intros Hres.
  destruct (attachment_inv w r name body Hres)
    as (chunks & Hm & Hid & Hdb & Hne & Hlen & Hbody & Hname).
  split_and!; [done|done|done|]. by exists chunks.
Qed.

Lemma X11_attachment_has_ten_bytes_witness :
  10 ≤ length (sampleBytes 12).
Proof.
  refine (proj1 (X11_attachment_has_ten_bytes (shortWorld []) (sampleDownload "id-2")
                   "b.bin" (sampleBytes 12) _)).
  vm_compute. reflexivity.
Defined.

(** ** Uploads to the in-memory backends, one after the other *)

Section MockUploads.

Implicit Types (w : world mockStorageServer) (j : job) (srv : mockStorageServer).

Lemma deliver_mock_other j i srv (id : string) :
  id ≠ job_resourceID j →
  GetChunk (deliver j i srv) id = GetChunk srv id.
Proof.
  intros Hid. unfold deliver. destruct (job_parts j !! i) as [part|]; [|done].
  cbn. unfold mock_GetChunk. cbn. by rewrite lookup_insert_ne.
Qed.

Lemma deliver_mock_own j i srv part :
  job_parts j !! i = Some part →
  GetChunk (deliver j i srv) (job_resourceID j) = inl (mkChunk i part).
Proof.
  intros Hpart. unfold deliver. rewrite Hpart.
  cbn. unfold mock_GetChunk. cbn. by rewrite lookup_insert_eq.
Qed.

(* an upload leaves the chunks kept under other identifiers alone *)
Lemma mock_upload_chunkOf_other sha256_Sum growth w (r : request)
    (uuid : string) (sched : list nat) (id : string) (info : fileChunkInfo) :
  id ≠ uuid →
  chunkOf (servers (uploadHandler sha256_Sum growth w r uuid sched).2) id info
  = chunkOf (servers w) id info.
Proof.
  intros Hid.
  destruct (uploadHandler_cases sha256_Sum growth w r uuid sched)
    as [->|(fh & _ & _ & _ & ->)]; [done|].
  cbn zeta. cbn [servers]. rewrite upload_end_imap by apply drainedJob_sized.
  unfold chunkOf. rewrite list_lookup_imap.
  destruct (servers w !! Order info) as [srv|]; [|done]. cbn.
  by rewrite deliver_mock_other.
Qed.

Lemma mock_upload_hollow sha256_Sum growth w (r : request)
    (uuid : string) (sched : list nat) :
  hollow w → hollow (uploadHandler sha256_Sum growth w r uuid sched).2.
Proof.
  intros Hw id chunks info Hdb Hin.
  destruct (decide (id = uuid)) as [->|Hne].
  - destruct (uploadHandler_cases sha256_Sum growth w r uuid sched)
      as [E|(fh & Hm & Hfh & HN & E)].
    + rewrite E in Hdb |- *. by eapply Hw.
    + destruct (uploadHandler_entry sha256_Sum growth w r uuid sched fh Hm Hfh HN)
        as (Hkey & Hperm & _).
      rewrite Hdb in Hkey. injection Hkey as Hkey. rewrite <- Hkey in Hperm.
      assert (Hlt : Order info < length (servers w)).
      { apply (elem_of_seq 0). rewrite <- Hperm. by apply list_elem_of_fmap_2. }
      rewrite E. cbn zeta. cbn [servers].
      rewrite upload_end_imap by apply drainedJob_sized.
      unfold chunkBytes, chunkOf. rewrite list_lookup_imap.
      destruct (lookup_lt_is_Some_2 (servers w) (Order info) Hlt) as [srv ->]. cbn.
      pose proof (deliver_mock_own (drainedJob uuid (Filename fh) (length (servers w)))
                    (Order info) srv drainedBuffer) as Hown.
      change (job_resourceID (drainedJob uuid (Filename fh) (length (servers w))))
        with uuid in Hown.
      cbn [GetChunk mock_client] in Hown.
      rewrite Hown by (cbn; by apply lookup_replicate_2).
      done.
  - unfold chunkBytes. rewrite mock_upload_chunkOf_other by done.
    rewrite uploadHandler_other_keys in Hdb by done. by eapply Hw.
Qed.

Lemma serveUploads_hollow sha256_Sum growth w (calls : list uploadCall) :
  hollow w → hollow (serveUploads sha256_Sum growth w calls).
Proof.
  revert w. induction calls as [|[[r uuid] sched] calls IH]; intros w Hw; [done|].
  cbn. apply IH. by apply mock_upload_hollow.
Qed.

Lemma hollow_no_attachment w (r : request) (name : string) (body : list byte) :
  hollow w → (downloadHandler w r).1 ≠ Val (Attachment name body).
Proof.
  intros Hw Hres.
  destruct (attachment_inv w r name body Hres)
    as (chunks & _ & _ & Hdb & _ & Hlen & Hbody & _).
  rewrite Hbody, concat_all_nil in Hlen; [cbn in Hlen; lia|].
  intros info Hin. by eapply Hw.
Qed.

End MockUploads.

(** X7. An upload writes under its own identifier only: the registry entries
    of all other identifiers are as before, and on the in-memory backends so
    is what every backend returns for every other name. *)
Theorem X7_upload_touches_its_identifier_only
    (sha256_Sum : list byte → list byte) (growth : nat → nat)
    (w : world mockStorageServer) (r : request) (uuid : string) (sched : list nat)
    (id : string) :
  id ≠ uuid →
  let w' := (uploadHandler sha256_Sum growth w r uuid sched).2 in
  fileChunksDB w' !! id = fileChunksDB w !! id
  ∧ length (servers w') = length (servers w)
  ∧ (∀ i srv srv', servers w !! i = Some srv → servers w' !! i = Some srv' →
       GetChunk srv' id = GetChunk srv id).
Proof.
  intros Hid w'. subst w'. split_and!.
  - by apply uploadHandler_other_keys.
  - apply uploadHandler_length.
  - intros i srv srv' Hsrv Hsrv'.
    destruct (uploadHandler_cases sha256_Sum growth w r uuid sched)
      as [E|(fh & _ & _ & _ & E)]; rewrite E in Hsrv'.
    + congruence.
    + cbn zeta in Hsrv'. cbn [servers] in Hsrv'.
      rewrite upload_end_imap in Hsrv' by apply drainedJob_sized.
      rewrite list_lookup_imap, Hsrv in Hsrv'. cbn in Hsrv'. injection Hsrv' as <-.
      by apply deliver_mock_other.
Qed.

Lemma X7_upload_touches_its_identifier_only_witness :
  fileChunksDB (uploadHandler sampleDigest sampleGrowth sampleEndWorld sampleUpload
                  "id-2" []).2 !! "id-1"
  = fileChunksDB sampleEndWorld !! "id-1".
Proof.
  refine (proj1 (X7_upload_touches_its_identifier_only sampleDigest sampleGrowth
                   sampleEndWorld sampleUpload "id-2" [] "id-1" _)).
  discriminate.
Defined.

(** X9. On the in-memory backends no upload is ever given back: whatever
    uploads have been handled since the registry was empty, no download
    request is answered with an attachment. *)
Theorem X9_no_upload_is_given_back
    (sha256_Sum : list byte → list byte) (growth : nat → nat)
    (w0 : world mockStorageServer) (calls : list uploadCall)
    (r : request) (name : string) (body : list byte) :
  fileChunksDB w0 = ∅ →
  (downloadHandler (serveUploads sha256_Sum growth w0 calls) r).1
  ≠ Val (Attachment name body).
Proof.
  intros Hempty. apply hollow_no_attachment, serveUploads_hollow.
  intros id chunks info Hdb. by rewrite Hempty, lookup_empty in Hdb.
Qed.

Lemma X9_no_upload_is_given_back_witness :
  (downloadHandler
     (serveUploads sampleDigest sampleGrowth sampleWorld
        [(sampleUpload, "id-1", []); (sampleUpload, "id-2", [5; 5])])
     (sampleDownload "id-2")).1
  ≠ Val (Attachment "a.bin" (sampleBytes 601)).
Proof.
  apply (X9_no_upload_is_given_back sampleDigest sampleGrowth sampleWorld
           [(sampleUpload, "id-1", []); (sampleUpload, "id-2", [5; 5])]
           (sampleDownload "id-2") "a.bin" (sampleBytes 601)).
  reflexivity.
Defined.

(** X12. What an upload leaves in the registry and on the backends does not
    depend on the bytes of the file: two POST requests with files of the
    same name, handled from the same state with the same identifier and
    schedule, end in the same state, whatever the two contents are. *)
Theorem X12_stored_state_ignores_content {S : Type} `{!StorageClient S}
    (sha256_Sum sha256_Sum' : list byte → list byte) (growth growth' : nat → nat)
    (w : world S) (r r' : request) (uuid : string) (sched : list nat)
    (fh fh' : fileHeader) :
  Method r = "POST" → Method r' = "POST" →
  FormFile r = Some fh → FormFile r' = Some fh' →
  Filename fh = Filename fh' →
  (uploadHandler sha256_Sum growth w r uuid sched).2
  = (uploadHandler sha256_Sum' growth' w r' uuid sched).2.
Proof.
  intros Hm Hm' Hfh Hfh' Hname.
  destruct (decide (length (servers w) = 0)) as [H0|HN].
  - unfold uploadHandler. rewrite Hm, Hm', Hfh, Hfh'. cbn [String.eqb negb ioCopy].
    destruct (ioReadAll growth (drained (openFile (Body fh)))) as [fileBytes file].
    destruct (ioReadAll growth' (drained (openFile (Body fh')))) as [fileBytes' file'].
    unfold splitFile. by rewrite H0.
  - rewrite (uploadHandler_runs _ _ _ _ _ _ fh), (uploadHandler_runs _ _ _ _ _ _ fh')
      by (done || lia).
    cbn zeta. cbn [snd]. by rewrite Hname.
Qed.

Lemma X12_stored_state_ignores_content_witness :
  (uploadHandler sampleDigest sampleGrowth sampleWorld sampleUpload "id-1" [1]).2
  = (uploadHandler sampleDigest sampleGrowth sampleWorld
       (mkRequest "POST" (Some (mkFileHeader "a.bin" [])) "") "id-1" [1]).2.
Proof.
  apply (X12_stored_state_ignores_content sampleDigest sampleDigest sampleGrowth
           sampleGrowth sampleWorld sampleUpload
           (mkRequest "POST" (Some (mkFileHeader "a.bin" [])) "") "id-1" [1]
           (mkFileHeader "a.bin" (sampleBytes 601)) (mkFileHeader "a.bin" []));
    reflexivity.
Defined.

(** ** The checksum string *)

Lemma hexValue_hexDigit (n : nat) : n < 16 → hexValue (hexDigit n) = n.
Proof.
  intros Hn. do 16 (destruct n as [|n]; [reflexivity|]). lia.
Qed.

Lemma hex_digits_inj (a b : byte) :
  hexDigit (Byte.to_nat a / 16) = hexDigit (Byte.to_nat b / 16) →
  hexDigit (Byte.to_nat a `mod` 16) = hexDigit (Byte.to_nat b `mod` 16) →
  a = b.
Proof.
  intros Hhi Hlo.
  pose proof (Byte.to_nat_bounded a) as Ha. pose proof (Byte.to_nat_bounded b) as Hb.
  apply (f_equal hexValue) in Hhi, Hlo.
  rewrite !hexValue_hexDigit in Hhi
    by (apply Nat.Div0.div_lt_upper_bound; lia).
  rewrite !hexValue_hexDigit in Hlo by (apply Nat.mod_upper_bound; lia).
  assert (Hnat : Byte.to_nat a = Byte.to_nat b).
  { rewrite (Nat.div_mod_eq (Byte.to_nat a) 16), (Nat.div_mod_eq (Byte.to_nat b) 16).
    by rewrite Hhi, Hlo. }
  apply (f_equal Byte.of_nat) in Hnat. rewrite !Byte.of_to_nat in Hnat.
  by injection Hnat.
Qed.

(** X13. The checksum string has two characters for each byte of the digest
    and determines the digest: different digests are never printed as the
    same string. *)
Theorem X13_hexEncode_injective (a b : list byte) :
  String.length (hexEncode a) = 2 * length a
  ∧ (hexEncode a = hexEncode b → a = b).
Proof.
  split.
  - induction a as [|x a IH]; [done|]. cbn. rewrite IH. lia.
  - revert b. induction a as [|x a IH]; intros [|y b] Heq; try done.
    cbn in Heq. injection Heq as Hhi Hlo Hrest.
    f_equal; [by apply hex_digits_inj | by apply IH].
Qed.

(** ** The download that follows an upload *)



